(** * Tyre inventory manager: the import / audit core of [app.py]

    A shallow embedding of the store (the [items] and [transactions]
    tables), of the spreadsheet normaliser [read_excel_to_df], of the
    merge import [upsert_items_from_df] and of the stock operations
    [add_stock], [remove_stock_by_id] and [remove_stock_by_signature],
    followed by the properties of the specification that concern them;
    then the destructive import [replace_db_with_df], the backup sheet, the
    handlers of the add and remove forms and the total of the page, with
    the properties the code shows for them.

    Conventions of the model.
    - Python integers and SQLite INTEGER values are mathematical integers
      ([Z]).  An integer beyond 64 bits makes [sqlite3] raise inside
      [cur.execute]: here that is one of the store failures below.  Where
      pandas computes on machine numbers the model does too: an id column
      that has gaps is float64 ([float64_int]), the sum of the quantity
      column is int64 ([wrap64]).
    - A string is a sequence of code points below U+0100, one per character
      (the 8-bit characters of [string] are read as code points, not as
      bytes of an encoding); on these [lower] and [strip] are [str.lower]
      and [str.strip].  Text with other code points is outside the model.
    - [datetime.utcnow().isoformat()] is an argument [ts] of every operation.
    - A store failure (the [sqlite3] module raising inside [cur.execute] or
      [conn.commit]) is decided by an oracle [fault] on the number of calls
      made so far on the connection. *)

From Stdlib Require Import ZArith List String Ascii Bool Lia.
Import ListNotations.
Open Scope string_scope.
Open Scope Z_scope.

(* ------------------------------------------------------------------ *)
(** ** Strings: [str.lower] and [str.strip] *)

Definition is_upper (a : ascii) : bool :=
  let n := nat_of_ascii a in
  (((65 <=? n) && (n <=? 90)) ||       (* A..Z *)
   ((192 <=? n) && (n <=? 214)) ||     (* U+00C0..U+00D6 *)
   ((216 <=? n) && (n <=? 222)))%nat.  (* U+00D8..U+00DE *)

(** Below U+0100 the lower-case letter of an upper-case one is 32 further. *)
Definition lower_ascii (a : ascii) : ascii :=
  if is_upper a then ascii_of_nat (nat_of_ascii a + 32) else a.

Fixpoint lower (s : string) : string :=
  match s with
  | EmptyString => EmptyString
  | String a s' => String (lower_ascii a) (lower s')
  end.

(** White space of [str.strip()] below U+0100: TAB..CR, FS..US, SPACE,
    NEL (U+0085) and NO-BREAK SPACE (U+00A0). *)
Definition is_space (a : ascii) : bool :=
  let n := nat_of_ascii a in
  (((9 <=? n) && (n <=? 13)) || ((28 <=? n) && (n <=? 32)) ||
   (n =? 133) || (n =? 160))%nat.

Fixpoint lstrip (s : string) : string :=
  match s with
  | EmptyString => EmptyString
  | String a s' => if is_space a then lstrip s' else s
  end.

Fixpoint rstrip (s : string) : string :=
  match s with
  | EmptyString => EmptyString
  | String a s' =>
      match rstrip s' with
      | EmptyString => if is_space a then EmptyString else String a EmptyString
      | t => String a t
      end
  end.

Definition strip (s : string) : string := rstrip (lstrip s).

(* ------------------------------------------------------------------ *)
(** ** Data model *)

(** A cell of the sheet as the loop of [read_excel_to_df] reads it, the
    value row[c] of a row of df.iterrows(): blank ([NaN]), a number
    (integer-valued; fractions are outside the model) or text. *)
Inductive cell : Type :=
| NaN
| Num (z : Z)
| Str (s : string).

(** The raw table: header names and one list of cells per data row. *)
Record Table : Type := mkTable {
  columns : list string;
  data : list (list cell)
}.

(** One row of the canonical dataframe: id, tyre_size, company, series, qty. *)
Record CanonicalRow : Type := mkRow {
  r_id : option Z;
  r_tyre_size : option string;
  r_company : option string;
  r_series : option string;
  r_qty : Z
}.

(** A dataframe handed to the import.  [pd.DataFrame([])] has neither rows
    nor columns; every other frame of the program has the columns id,
    tyre_size, company, series and qty. *)
Inductive DataFrame : Type :=
| EmptyFrame
| Frame (rows : list CanonicalRow).

(** A row of table [items]. *)
Record Item : Type := mkItem {
  it_id : Z;
  it_tyre_size : option string;
  it_company : option string;
  it_series : option string;
  it_qty : Z;
  it_last_updated : string
}.

(** A row of table [transactions].  Its AUTOINCREMENT key only orders the
    entries; the position in the list stands for it. *)
Record Txn : Type := mkTxn {
  tx_item_id : Z;
  tx_tyre_size : option string;
  tx_company : option string;
  tx_series : option string;
  tx_change : Z;
  tx_reason : string;
  tx_timestamp : string;
  tx_note : option string
}.

(** The store.  [items] is kept in rowid order, as the table's B-tree is. *)
Record DB : Type := mkDB {
  items : list Item;
  transactions : list Txn
}.

Definition empty_db : DB := mkDB [] [].

(** The exceptions the code raises, with the values their messages show. *)
Inductive exn : Type :=
| ValueError_columns (required found : list string)
    (* "Excel must contain columns: {required}. Found: {list(df.columns)}" *)
| ValueError_int (c : cell)
    (* int() of a cell that is not a number *)
| KeyError (key : string)
| ValueError_item_id_not_found
    (* "Item ID not found." *)
| ValueError_not_enough_stock (current requested : Z)
    (* "Not enough stock. Current: {cur_qty}, requested: {qty}" *)
| ValueError_signature_not_found
    (* "Item not found by signature." *)
| IntegrityError (id : Z)
    (* INSERT of a primary key that is already there *)
| StoreFault (call : nat)
    (* sqlite3 raised in the given call on the connection *).

Inductive result (A : Type) : Type :=
| Ok (a : A)
| Err (e : exn).
Arguments Ok {A} a.
Arguments Err {A} e.

Definition notna {A : Type} (v : option A) : bool :=
  match v with Some _ => true | None => false end.

Definition isna {A : Type} (v : option A) : bool := negb (notna v).

(* ------------------------------------------------------------------ *)
(** ** SQL: comparison with NULL and the statements of the program *)

Definition sql_eq (a b : option string) : option bool :=
  match a, b with
  | Some x, Some y => Some (String.eqb x y)
  | _, _ => None
  end.

Definition sql_and (a b : option bool) : option bool :=
  match a, b with
  | Some false, _ | _, Some false => Some false
  | Some true, Some true => Some true
  | _, _ => None
  end.

Definition sql_or (a b : option bool) : option bool :=
  match a, b with
  | Some true, _ | _, Some true => Some true
  | Some false, Some false => Some false
  | _, _ => None
  end.

Definition sql_is_null {A : Type} (a : option A) : option bool := Some (isna a).

(** A WHERE clause keeps a row only when it evaluates to true. *)
Definition sql_holds (v : option bool) : bool :=
  match v with Some true => true | _ => false end.

(** WHERE tyre_size = ? AND (company = ? OR (company IS NULL AND ? IS NULL))
          AND (series = ? OR (series IS NULL AND ? IS NULL)) *)
Definition signature_where (tyre_size company series : option string)
    (it : Item) : bool :=
  sql_holds
    (sql_and
       (sql_and
          (sql_eq (it_tyre_size it) tyre_size)
          (sql_or (sql_eq (it_company it) company)
                  (sql_and (sql_is_null (it_company it)) (sql_is_null company))))
       (sql_or (sql_eq (it_series it) series)
               (sql_and (sql_is_null (it_series it)) (sql_is_null series)))).

(** The row with primary key [item_id], if any. *)
Definition lookup_id (item_id : Z) (its : list Item) : option Item :=
  find (fun it => it_id it =? item_id) its.

(** First row, in rowid order, that the signature WHERE clause keeps. *)
Definition lookup_signature (tyre_size company series : option string)
    (its : list Item) : option Item :=
  find (signature_where tyre_size company series) its.

(** Rows stay ordered by rowid. *)
Fixpoint insert_by_id (it : Item) (its : list Item) : list Item :=
  match its with
  | [] => [it]
  | x :: tl => if it_id it <? it_id x then it :: its else x :: insert_by_id it tl
  end.

(** The rowid SQLite assigns to a row inserted without one: one more than
    the largest in the table, 1 in an empty table. *)
Definition new_rowid (its : list Item) : Z :=
  match its with
  | [] => 1
  | x :: tl => fold_right Z.max (it_id x) (map it_id tl) + 1
  end.

(** UPDATE items SET ... WHERE id = ? *)
Definition update_where_id (item_id : Z) (f : Item -> Item)
    (its : list Item) : list Item :=
  map (fun it => if it_id it =? item_id then f it else it) its.

(** A statement reads or changes the working copy of the store. *)
Definition Stmt (A : Type) : Type := DB -> result (A * DB).

(** SELECT qty FROM items WHERE id = ? *)
Definition select_qty_by_id (item_id : Z) : Stmt (option Z) :=
  fun w => Ok (option_map it_qty (lookup_id item_id (items w)), w).

(** SELECT qty, tyre_size, company, series FROM items WHERE id = ? *)
Definition select_item_by_id (item_id : Z) : Stmt (option Item) :=
  fun w => Ok (lookup_id item_id (items w), w).

(** SELECT id, qty[, tyre_size, company, series] FROM items WHERE <signature> *)
Definition select_by_signature (tyre_size company series : option string)
  : Stmt (option Item) :=
  fun w => Ok (lookup_signature tyre_size company series (items w), w).

(** UPDATE items SET tyre_size = ?, company = ?, series = ?, qty = ?,
    last_updated = ? WHERE id = ? *)
Definition update_item (item_id : Z) (tyre_size company series : option string)
    (new_qty : Z) (ts : string) : Stmt unit :=
  fun w =>
    Ok (tt, mkDB (update_where_id item_id
                    (fun it => mkItem (it_id it) tyre_size company series new_qty ts)
                    (items w))
                 (transactions w)).

(** UPDATE items SET qty = ?, last_updated = ? WHERE id = ? *)
Definition update_qty (item_id : Z) (new_qty : Z) (ts : string) : Stmt unit :=
  fun w =>
    Ok (tt, mkDB (update_where_id item_id
                    (fun it => mkItem (it_id it) (it_tyre_size it) (it_company it)
                                      (it_series it) new_qty ts)
                    (items w))
                 (transactions w)).

(** INSERT INTO items (id, tyre_size, company, series, qty, last_updated) *)
Definition insert_item_with_id (item_id : Z)
    (tyre_size company series : option string) (qty : Z) (ts : string)
  : Stmt unit :=
  fun w =>
    match lookup_id item_id (items w) with
    | Some _ => Err (IntegrityError item_id)
    | None =>
        Ok (tt, mkDB (insert_by_id (mkItem item_id tyre_size company series qty ts)
                                   (items w))
                     (transactions w))
    end.

(** INSERT INTO items (tyre_size, company, series, qty, last_updated);
    the result is [cur.lastrowid]. *)
Definition insert_item (tyre_size company series : option string) (qty : Z)
    (ts : string) : Stmt Z :=
  fun w =>
    let new_id := new_rowid (items w) in
    Ok (new_id, mkDB (insert_by_id (mkItem new_id tyre_size company series qty ts)
                                   (items w))
                     (transactions w)).

(** INSERT INTO transactions (item_id, tyre_size, company, series, change,
    reason, timestamp, note) *)
Definition insert_transaction (t : Txn) : Stmt unit :=
  fun w => Ok (tt, mkDB (items w) (transactions w ++ [t])).

(* ------------------------------------------------------------------ *)
(** ** The connection: uncommitted work, commit, failures *)

(** [disk] is the committed store, [work] what the connection sees (its own
    writes included), [calls] the number of calls made on it so far. *)
Record Conn : Type := mkConn {
  disk : DB;
  work : DB;
  calls : nat
}.

(** A computation on an open connection.  On an exception the connection is
    returned as it was when the exception was raised. *)
Definition SQL (A : Type) : Type := Conn -> result A * Conn.

Definition ret {A : Type} (a : A) : SQL A := fun c => (Ok a, c).

Definition raise {A : Type} (e : exn) : SQL A := fun c => (Err e, c).

Definition bind {A B : Type} (m : SQL A) (k : A -> SQL B) : SQL B :=
  fun c =>
    match m c with
    | (Ok a, c') => k a c'
    | (Err e, c') => (Err e, c')
    end.

Notation "x <- m ;; k" := (bind m (fun x => k))
  (at level 61, m at next level, right associativity).
Notation "m ;; k" := (bind m (fun _ => k))
  (at level 61, right associativity).

(** for x in l: body(x) *)
Fixpoint for_each {A : Type} (l : list A) (body : A -> SQL unit) : SQL unit :=
  match l with
  | [] => ret tt
  | x :: tl => body x ;; for_each tl body
  end.

(** conn = get_conn() ... : the body runs on a fresh connection; what is on
    disk afterwards is what the body committed.  Work that was not committed
    is lost with the connection. *)
Definition with_conn {A : Type} (body : SQL A) (db : DB) : result A * DB :=
  let (r, c) := body (mkConn db db 0%nat) in (r, disk c).

Definition no_fault : nat -> bool := fun _ => false.

Section Operations.

(** [fault n]: the call number [n] on the connection raises. *)
Variable fault : nat -> bool.

(** cur.execute(stmt, params) *)
Definition execute {A : Type} (stmt : Stmt A) : SQL A :=
  fun c =>
    if fault (calls c) then (Err (StoreFault (calls c)), c)
    else match stmt (work c) with
         | Ok (a, w) => (Ok a, mkConn (disk c) w (S (calls c)))
         | Err e => (Err e, c)
         end.

(** conn.commit() *)
Definition commit : SQL unit :=
  fun c =>
    if fault (calls c) then (Err (StoreFault (calls c)), c)
    else (Ok tt, mkConn (work c) (work c) (S (calls c))).

(** Body of the first loop of [upsert_items_from_df]: a row with an id. *)
Definition upsert_id_row (ts : string) (r : CanonicalRow) : SQL unit :=
  match r_id r with
  | None => raise (ValueError_int NaN)   (* int(nan); the filter excludes it *)
  | Some item_id =>
      let tyre_size := r_tyre_size r in
      let company := r_company r in
      let series := r_series r in
      let qty := r_qty r in
      found <- execute (select_qty_by_id item_id) ;;
      match found with
      | Some found_0 =>
          let new_qty := found_0 + qty in
          execute (update_item item_id tyre_size company series new_qty ts)
      | None =>
          execute (insert_item_with_id item_id tyre_size company series qty ts)
      end ;;
      execute (insert_transaction
                 (mkTxn item_id tyre_size company series qty
                        "import_upsert" ts (Some "import from excel")))
  end.

(** Body of the second loop of [upsert_items_from_df]: a row without id. *)
Definition upsert_no_id_row (ts : string) (r : CanonicalRow) : SQL unit :=
  let tyre_size := r_tyre_size r in
  let company := r_company r in
  let series := r_series r in
  let qty := r_qty r in
  found <- execute (select_by_signature tyre_size company series) ;;
  match found with
  | Some it =>
      let item_id := it_id it in
      let cur_qty := it_qty it in
      let new_qty := cur_qty + qty in
      execute (update_qty item_id new_qty ts) ;;
      execute (insert_transaction
                 (mkTxn item_id tyre_size company series qty
                        "import_merge_signature" ts (Some "imported by signature")))
  | None =>
      new_id <- execute (insert_item tyre_size company series qty ts) ;;
      execute (insert_transaction
                 (mkTxn new_id tyre_size company series qty
                        "import_new" ts (Some "new row from excel")))
  end.

Definition upsert_body (ts : string) (df_in : DataFrame) : SQL unit :=
  match df_in with
  | EmptyFrame => raise (KeyError "id")      (* df_in['id'] *)
  | Frame rows =>
      let rows_with_id := filter (fun r => notna (r_id r)) rows in
      for_each rows_with_id (upsert_id_row ts) ;;
      let rows_no_id := filter (fun r => isna (r_id r)) rows in
      for_each rows_no_id (upsert_no_id_row ts) ;;
      commit
  end.

Definition upsert_items_from_df (ts : string) (df_in : DataFrame)
  : DB -> result unit * DB :=
  with_conn (upsert_body ts df_in).

Definition add_stock_body (ts : string) (item_id : option Z)
    (tyre_size company series : option string) (qty : Z) (note : option string)
  : SQL Z :=
  item_id' <-
    match item_id with
    | Some i =>
        r <- execute (select_qty_by_id i) ;;
        match r with
        | Some r_0 =>
            let new_qty := r_0 + qty in
            execute (update_item i tyre_size company series new_qty ts)
        | None =>
            execute (insert_item_with_id i tyre_size company series qty ts)
        end ;;
        ret i
    | None =>
        execute (insert_item tyre_size company series qty ts)
    end ;;
  execute (insert_transaction
             (mkTxn item_id' tyre_size company series qty "stock_in" ts note)) ;;
  commit ;;
  ret item_id'.

Definition add_stock (ts : string) (item_id : option Z)
    (tyre_size company series : option string) (qty : Z) (note : option string)
  : DB -> result Z * DB :=
  with_conn (add_stock_body ts item_id tyre_size company series qty note).

Definition remove_stock_by_id_body (ts : string) (item_id qty : Z)
    (reason : string) (note : option string) : SQL unit :=
  row <- execute (select_item_by_id item_id) ;;
  match row with
  | None => raise ValueError_item_id_not_found
  | Some it =>
      let cur_qty := it_qty it in
      let tyre_size := it_tyre_size it in
      let company := it_company it in
      let series := it_series it in
      if qty >? cur_qty then raise (ValueError_not_enough_stock cur_qty qty)
      else
        let new_qty := cur_qty - qty in
        execute (update_qty item_id new_qty ts) ;;
        execute (insert_transaction
                   (mkTxn item_id tyre_size company series (- qty) reason ts note)) ;;
        commit
  end.

Definition remove_stock_by_id (ts : string) (item_id qty : Z)
    (reason : string) (note : option string) : DB -> result unit * DB :=
  with_conn (remove_stock_by_id_body ts item_id qty reason note).

(** The query of [find_item_by_signature]. *)
Definition find_item_by_signature_body (tyre_size company series : option string)
  : SQL (option Item) :=
  execute (select_by_signature tyre_size company series).

Definition find_item_by_signature (tyre_size company series : option string)
  : DB -> result (option Item) * DB :=
  with_conn (find_item_by_signature_body tyre_size company series).

(** [find_item_by_signature] opens and closes a connection of its own before
    the one that writes is opened; it reads the committed store, which is
    what the second connection starts from, so both run here as one
    computation. *)
Definition remove_stock_by_signature_body (ts : string)
    (tyre_size company series : option string) (qty : Z)
    (reason : string) (note : option string) : SQL unit :=
  found <- find_item_by_signature_body tyre_size company series ;;
  match found with
  | None => raise ValueError_signature_not_found
  | Some it =>
      let item_id := it_id it in
      let cur_qty := it_qty it in
      if qty >? cur_qty then raise (ValueError_not_enough_stock cur_qty qty)
      else
        let new_qty := cur_qty - qty in
        execute (update_qty item_id new_qty ts) ;;
        execute (insert_transaction
                   (mkTxn item_id (it_tyre_size it) (it_company it) (it_series it)
                          (- qty) reason ts note)) ;;
        commit
  end.

Definition remove_stock_by_signature (ts : string)
    (tyre_size company series : option string) (qty : Z)
    (reason : string) (note : option string) : DB -> result unit * DB :=
  with_conn (remove_stock_by_signature_body ts tyre_size company series qty reason note).

(** What section 4.2 of the specification describes instead: the rows in
    their original order, each row committed on its own. *)
Definition spec_merge_row (ts : string) (r : CanonicalRow) : SQL unit :=
  (if notna (r_id r) then upsert_id_row ts r else upsert_no_id_row ts r) ;;
  commit.

Definition spec_merge_in_order (ts : string) (rows : list CanonicalRow)
  : DB -> result unit * DB :=
  with_conn (for_each rows (spec_merge_row ts)).

End Operations.

(** SELECT * FROM items ORDER BY id *)
Definition order_by_id (its : list Item) : list Item :=
  fold_right insert_by_id [] its.

Definition row_of_item (it : Item) : CanonicalRow :=
  mkRow (Some (it_id it)) (it_tyre_size it) (it_company it) (it_series it) (it_qty it).

Definition get_items_df (db : DB) : DataFrame :=
  Frame (map row_of_item (order_by_id (items db))).

(* ------------------------------------------------------------------ *)
(** ** The spreadsheet normaliser *)

(** {c.lower().strip(): c for c in df.columns}, as the list of its bindings
    in the order they are made. *)
Definition normalize_cols (cols : list string) : list (string * string) :=
  map (fun c => (strip (lower c), c)) cols.

(** Lookup in the dict: a later binding of a key replaces an earlier one. *)
Definition dict_get (key : string) (d : list (string * string)) : option string :=
  fold_left (fun acc kv => if String.eqb (fst kv) key then Some (snd kv) else acc)
            d None.

(** key in d *)
Definition dict_has (key : string) (d : list (string * string)) : bool :=
  notna (dict_get key d).

Definition required : list string := ["id"; "tyre size"; "quantity"].

Fixpoint index_of (name : string) (cols : list string) : nat :=
  match cols with
  | [] => 0%nat
  | c :: tl => if String.eqb c name then 0%nat else S (index_of name tl)
  end.

(** row[cols_map[key]].  The code reads a key only after it has checked that
    the dict has it, so the [None] branch is never taken. *)
Definition row_get (cols : list string) (cols_map : list (string * string))
    (row : list cell) (key : string) : cell :=
  match dict_get key cols_map with
  | Some c => nth (index_of c cols) row NaN
  | None => NaN
  end.

(** pd.notna(cell) *)
Definition cell_notna (c : cell) : bool :=
  match c with NaN => false | _ => true end.

(** The list of missing fields, in the words of the specification: the
    required names that no column of the sheet carries. *)
Definition missing_fields (cols : list string) : list string :=
  filter (fun r => negb (dict_has r (normalize_cols cols))) required.

(** The integer [int(x)] gives back from the float64 [x] nearest to an
    integer: 53 significant bits, ties to even. *)
Definition float64_int (z : Z) : Z :=
  let a := Z.abs z in
  if a <=? 2 ^ 53 then z
  else
    let sh := Z.log2 a - 52 in
    let q := Z.shiftr a sh in
    let r := a - Z.shiftl q sh in
    let half := Z.shiftl 1 (sh - 1) in
    let q' := if (half <? r) || ((r =? half) && Z.odd q) then q + 1 else q in
    Z.sgn z * Z.shiftl q' sh.

(** The id column of [pd.DataFrame(rows)].  When some rows have an id and
    some have None, the column is float64 with NaN for None, and the
    [int(r['id'])] of the import reads the rounded id; when all rows have an
    id or none has, the ids are kept as they are. *)
Definition id_column (ids : list (option Z)) : list (option Z) :=
  if existsb isna ids && existsb notna ids
  then map (option_map float64_int) ids
  else ids.

Definition with_id (r : CanonicalRow) (i : option Z) : CanonicalRow :=
  mkRow i (r_tyre_size r) (r_company r) (r_series r) (r_qty r).

Section Normalizer.

(** [int(s)] for a text cell ([None]: it raises) and [str(x)] for a number,
    which depends on the dtype pandas gave the column. *)
Variable py_int_of_str : string -> option Z.
Variable py_str_of_num : Z -> string.

Definition py_int (c : cell) : option Z :=
  match c with
  | NaN => None
  | Num z => Some z
  | Str s => py_int_of_str s
  end.

Definition py_str (c : cell) : string :=
  match c with
  | NaN => "nan"
  | Num z => py_str_of_num z
  | Str s => s
  end.

(** Body of the loop of [read_excel_to_df]. *)
Definition canonical_row (cols : list string) (cols_map : list (string * string))
    (row : list cell) : result CanonicalRow :=
  let get := row_get cols cols_map row in
  let excel_id :=
    if cell_notna (get "id") then py_int (get "id")   (* except Exception: None *)
    else None in
  let tyre_size :=
    if cell_notna (get "tyre size") then Some (strip (py_str (get "tyre size")))
    else None in
  let company :=
    if dict_has "company" cols_map && cell_notna (get "company")
    then Some (strip (py_str (get "company"))) else None in
  let series :=
    if dict_has "series" cols_map && cell_notna (get "series")
    then Some (strip (py_str (get "series"))) else None in
  if cell_notna (get "quantity") then
    match py_int (get "quantity") with
    | Some qty => Ok (mkRow excel_id tyre_size company series qty)
    | None => Err (ValueError_int (get "quantity"))
    end
  else Ok (mkRow excel_id tyre_size company series 0).

Fixpoint canonical_rows (cols : list string) (cols_map : list (string * string))
    (rows : list (list cell)) : result (list CanonicalRow) :=
  match rows with
  | [] => Ok []
  | row :: tl =>
      match canonical_row cols cols_map row with
      | Err e => Err e
      | Ok r =>
          match canonical_rows cols cols_map tl with
          | Err e => Err e
          | Ok rs => Ok (r :: rs)
          end
      end
  end.

(** pd.DataFrame(rows): without rows a frame without columns; otherwise
    the columns of the rows, of which tyre_size, company and series are
    object columns and qty holds integers, so that only the ids can
    change. *)
Definition pd_DataFrame (rows : list CanonicalRow) : DataFrame :=
  match rows with
  | [] => EmptyFrame
  | _ => Frame (map (fun p => with_id (fst p) (snd p))
                    (combine rows (id_column (map r_id rows))))
  end.

(** [df] is what [pd.read_excel(file_like)] returned. *)
Definition read_excel_to_df (df : Table) : result DataFrame :=
  let cols_map := normalize_cols (columns df) in
  if negb (forallb (fun r => dict_has r cols_map) required)
  then Err (ValueError_columns required (columns df))
  else
    match canonical_rows (columns df) cols_map (data df) with
    | Err e => Err e
    | Ok rows => Ok (pd_DataFrame rows)
    end.

(** The merge import of the UI: parse the sheet, then merge it.  An exception
    of either step is caught and shown. *)
Definition import_merge (fault : nat -> bool) (ts : string) (df : Table) (db : DB)
  : result unit * DB :=
  match read_excel_to_df df with
  | Err e => (Err e, db)
  | Ok df_excel => upsert_items_from_df fault ts df_excel db
  end.

End Normalizer.

(* ------------------------------------------------------------------ *)
(** ** Notions used in the statements *)

(** Primary key: the ids of [items] increase strictly along the table. *)
Fixpoint increasing (l : list Z) : Prop :=
  match l with
  | [] => True
  | x :: tl => Forall (fun y => x < y) tl /\ increasing tl
  end.

Definition wf (db : DB) : Prop := increasing (map it_id (items db)).

(** Quantity on hand under an id; a record that does not exist holds 0. *)
Definition qty_of (db : DB) (item_id : Z) : Z :=
  match lookup_id item_id (items db) with
  | Some it => it_qty it
  | None => 0
  end.

(** One audited mutation: exactly one entry is appended to the log, the
    quantity under the entry's id moves by the entry's delta, and no other
    quantity moves. *)
Definition audited_step (db db' : DB) : Prop :=
  exists e : Txn,
    transactions db' = (transactions db ++ [e])%list /\
    qty_of db' (tx_item_id e) = qty_of db (tx_item_id e) + tx_change e /\
    forall j, j <> tx_item_id e -> qty_of db' j = qty_of db j.

(** [n] audited mutations in a row. *)
Inductive audited : nat -> DB -> DB -> Prop :=
| audited_O : forall db, audited 0 db db
| audited_S : forall n db db1 db2,
    audited_step db db1 -> audited n db1 db2 -> audited (S n) db db2.

Definition frame_rows (df : DataFrame) : list CanonicalRow :=
  match df with
  | EmptyFrame => []
  | Frame rows => rows
  end.

(** The working store after a computation that runs without store failure. *)
Definition effect {A : Type} (m : SQL A) (w : DB) : DB :=
  work (snd (m (mkConn w w 0%nat))).

Definition merge_id_row (ts : string) (w : DB) (r : CanonicalRow) : DB :=
  effect (upsert_id_row no_fault ts r) w.

Definition merge_no_id_row (ts : string) (w : DB) (r : CanonicalRow) : DB :=
  effect (upsert_no_id_row no_fault ts r) w.

(** [m] either runs to the end, leaving the committed store alone and
    turning the working store [w] into [f w], or stops at a store failure,
    leaving the committed store alone. *)
Definition runs {A : Type} (fault : nat -> bool) (m : SQL A) (f : DB -> DB) : Prop :=
  forall c,
    (exists a c', m c = (Ok a, c') /\ disk c' = disk c /\ work c' = f (work c)) \/
    (exists n c', m c = (Err (StoreFault n), c') /\ disk c' = disk c /\ fault n = true).

(** The store after the two loops of [upsert_items_from_df]. *)
Definition merged (ts : string) (rows : list CanonicalRow) (db : DB) : DB :=
  fold_left (merge_no_id_row ts) (filter (fun r => isna (r_id r)) rows)
    (fold_left (merge_id_row ts) (filter (fun r => notna (r_id r)) rows) db).

(** Outcome of an operation started on store [db]: on success the store went
    through [n] audited mutations, on failure it is the store [db] again. *)
Definition atomic_audited {A : Type} (n : nat) (db : DB) (out : result A * DB)
  : Prop :=
  match fst out with
  | Ok _ => audited n db (snd out)
  | Err _ => snd out = db
  end.

(** What the re-import of its own export makes of a record, and the entry it
    logs for it. *)
Definition doubled (ts : string) (it : Item) : Item :=
  mkItem (it_id it) (it_tyre_size it) (it_company it) (it_series it)
         (2 * it_qty it) ts.

Definition reimport_entry (ts : string) (it : Item) : Txn :=
  mkTxn (it_id it) (it_tyre_size it) (it_company it) (it_series it) (it_qty it)
        "import_upsert" ts (Some "import from excel").

(** A small store for examples: two records, one entry in the log. *)
Definition sample_db : DB :=
  mkDB [mkItem 1 (Some "185 65 R14") (Some "Acme") None 7 "t0";
        mkItem 2 (Some "155 70 R13") None None 3 "t0"]
       [mkTxn 1 (Some "185 65 R14") (Some "Acme") None 7 "stock_in" "t0" None].

(* ------------------------------------------------------------------ *)
(** ** The destructive import, the export sheet and the add form *)

(** DELETE FROM transactions *)
Definition delete_transactions : Stmt unit :=
  fun w => Ok (tt, mkDB (items w) []).

(** DELETE FROM items *)
Definition delete_items : Stmt unit :=
  fun w => Ok (tt, mkDB [] (transactions w)).

(** Body of the loop of [replace_db_with_df]. *)
Definition replace_row (fault : nat -> bool) (ts : string) (r : CanonicalRow)
  : SQL unit :=
  let excel_id := r_id r in
  let tyre_size := r_tyre_size r in
  let company := r_company r in
  let series := r_series r in
  let qty := r_qty r in
  item_id <-
    match excel_id with
    | Some i =>
        execute fault (insert_item_with_id i tyre_size company series qty ts) ;;
        ret i
    | None =>
        execute fault (insert_item tyre_size company series qty ts)
    end ;;
  execute fault
    (insert_transaction
       (mkTxn item_id tyre_size company series qty
              "replace_import" ts (Some "replace db from excel"))).

(** [df_in.iterrows()] reads no column: a frame without columns gives no
    iteration and no KeyError. *)
Definition replace_body (fault : nat -> bool) (ts : string) (df_in : DataFrame)
  : SQL unit :=
  execute fault delete_transactions ;;
  execute fault delete_items ;;
  for_each (frame_rows df_in) (replace_row fault ts) ;;
  commit fault.

Definition replace_db_with_df (fault : nat -> bool) (ts : string)
    (df_in : DataFrame) : DB -> result unit * DB :=
  with_conn (replace_body fault ts df_in).

(** A value of the items table as a cell of the sheet [to_excel] writes:
    NULL is an empty cell. *)
Definition text_cell (v : option string) : cell :=
  match v with
  | Some s => Str s
  | None => NaN
  end.

(** The sheet of [backup_db_to_excel]: the columns of [SELECT * FROM items],
    one row per record, no index column. *)
Definition backup_sheet (db : DB) : Table :=
  mkTable ["id"; "tyre_size"; "company"; "series"; "qty"; "last_updated"]
    (map (fun it => [Num (it_id it); text_cell (it_tyre_size it);
                     text_cell (it_company it); text_cell (it_series it);
                     Num (it_qty it); Str (it_last_updated it)])
         (order_by_id (items db))).

(** [backup_db_to_excel] writes that sheet to the file whose path it
    returns: df.to_excel(output_path, index=False). *)
Definition backup_db_to_excel (db : DB) : Table := backup_sheet db.

(** x or None, for a string x *)
Definition or_none (s : string) : option string :=
  if String.eqb s "" then None else Some s.

(** What the page shows after the add form is submitted. *)
Inductive shown : Type :=
| Shown_added (new_id : Z)    (* st.success(f"Added {qty_add} units. Item ID: {new_id}") *)
| Shown_size_required         (* st.error("Tyre Size is required.") *)
| Shown_error (e : exn)       (* st.error(f"Error: {e}") *).

(** The handler of the add form ("if submitted:").  [py_int_of_str] is
    [int(s)] on text, [None] when it raises ValueError. *)
Definition submit_add_form (py_int_of_str : string -> option Z)
    (fault : nat -> bool) (ts : string)
    (id_input tyre_size company series : string) (qty_add : Z) (note : string)
    (db : DB) : shown * DB :=
  let parsed :=
    if String.eqb (strip id_input) "" then Some None
    else option_map Some (py_int_of_str (strip id_input)) in
  match parsed with
  | None => (Shown_error (ValueError_int (Str (strip id_input))), db)
  | Some item_id =>
      if String.eqb tyre_size "" then (Shown_size_required, db)
      else
        match add_stock fault ts item_id (Some (strip tyre_size))
                (or_none (strip company)) (or_none (strip series)) qty_add
                (or_none (strip note)) db with
        | (Ok new_id, db') => (Shown_added new_id, db')
        | (Err e, db') => (Shown_error e, db')
        end
  end.

(** The radio button of the remove form. *)
Inductive rem_mode : Type :=
| By_id           (* "ID" *)
| By_signature    (* "Tyre Size + Company + Series" *).

(** What the page shows after the remove form is submitted. *)
Inductive shown_removal : Type :=
| Shown_removed               (* st.success(f"Removed ...") *)
| Shown_provide_id            (* st.error("Provide ID to remove.") *)
| Shown_provide_size          (* st.error("Provide Tyre Size for signature removal.") *)
| Shown_removal_error (e : exn)   (* st.error(f"Error: {e}") *).

(** The handler of the remove form ("if rem_sub:"). *)
Definition submit_remove_form (py_int_of_str : string -> option Z)
    (fault : nat -> bool) (ts : string) (mode : rem_mode)
    (rem_id rem_tyre rem_company rem_series : string) (qty_rm : Z)
    (reason : string) (note_rm : string) (db : DB) : shown_removal * DB :=
  match mode with
  | By_id =>
      if String.eqb (strip rem_id) "" then (Shown_provide_id, db)
      else
        match py_int_of_str (strip rem_id) with
        | None => (Shown_removal_error (ValueError_int (Str (strip rem_id))), db)
        | Some i =>
            match remove_stock_by_id fault ts i qty_rm reason
                    (or_none (strip note_rm)) db with
            | (Ok _, db') => (Shown_removed, db')
            | (Err e, db') => (Shown_removal_error e, db')
            end
        end
  | By_signature =>
      if String.eqb rem_tyre "" then (Shown_provide_size, db)
      else
        match remove_stock_by_signature fault ts (Some (strip rem_tyre))
                (or_none (strip rem_company)) (or_none (strip rem_series)) qty_rm
                reason (or_none (strip note_rm)) db with
        | (Ok _, db') => (Shown_removed, db')
        | (Err e, db') => (Shown_removal_error e, db')
        end
  end.

(** Addition of int64 numbers wraps around. *)
Definition wrap64 (z : Z) : Z := (z + 2 ^ 63) mod 2 ^ 64 - 2 ^ 63.

(** "Total units in stock" of the page, computed from the frame of
    [get_items_df]: int(df['qty'].sum()) if not df.empty else 0, where
    df['qty'] is an int64 column. *)
Definition total_units (db : DB) : Z :=
  wrap64 (fold_right Z.add 0 (map r_qty (frame_rows (get_items_df db)))).

(* ------------------------------------------------------------------ *)
(** ** Further notions used in the statements *)

(** Sum of the deltas the log holds for an id. *)
Definition logged (db : DB) (item_id : Z) : Z :=
  fold_right Z.add 0
    (map tx_change (filter (fun e => tx_item_id e =? item_id) (transactions db))).




(** Sum of the deltas of the log entries that [p] keeps. *)
Definition sum_where (p : Txn -> bool) (log : list Txn) : Z :=
  fold_right Z.add 0 (map tx_change (filter p log)).

(** Sum of all the deltas of the log. *)
Definition log_total (db : DB) : Z :=
  sum_where (fun _ => true) (transactions db).

(** The log explains the stock: every quantity is the sum of its deltas. *)
Definition ledger (db : DB) : Prop :=
  forall j, qty_of db j = logged db j.

(** The stores the program can produce from the empty store. *)
Inductive reachable : DB -> Prop :=
| reach_empty : reachable empty_db
| reach_upsert : forall fault ts df db,
    reachable db -> reachable (snd (upsert_items_from_df fault ts df db))
| reach_replace : forall fault ts df db,
    reachable db -> reachable (snd (replace_db_with_df fault ts df db))
| reach_add : forall fault ts item_id tyre_size company series qty note db,
    reachable db ->
    reachable (snd (add_stock fault ts item_id tyre_size company series qty note db))
| reach_remove_id : forall fault ts item_id qty reason note db,
    reachable db ->
    reachable (snd (remove_stock_by_id fault ts item_id qty reason note db))
| reach_remove_signature : forall fault ts tyre_size company series qty reason note db,
    reachable db ->
    reachable (snd (remove_stock_by_signature fault ts tyre_size company series
                      qty reason note db)).

(** One write of a row and of its log entry: either the records under one
    id that is in the table are rewritten in place, or a record is inserted
    under an id that is not in the table. *)
Definition row_write (w w' : DB) : Prop :=
  (exists i f e,
      lookup_id i (items w) <> None /\
      (forall x, it_id (f x) = it_id x) /\
      w' = mkDB (update_where_id i f (items w)) (transactions w ++ [e])) \/
  (exists x e,
      lookup_id (it_id x) (items w) = None /\
      w' = mkDB (insert_by_id x (items w)) (transactions w ++ [e])).

(** Any number of such writes. *)
Inductive row_writes : DB -> DB -> Prop :=
| row_writes_refl : forall w, row_writes w w
| row_writes_step : forall w w1 w2,
    row_write w w1 -> row_writes w1 w2 -> row_writes w w2.

(** [db'] keeps what [db] holds: the old log is the beginning of the new
    log and every id of the table is still in the table. *)
Definition keeps (db db' : DB) : Prop :=
  (exists l, transactions db' = (transactions db ++ l)%list) /\
  forall j, lookup_id j (items db) <> None -> lookup_id j (items db') <> None.

(** Outcome of an operation started on store [db]: on success the store went
    through row writes only, on failure it is the store [db] again. *)
Definition atomic_writes {A : Type} (db : DB) (out : result A * DB) : Prop :=
  match fst out with
  | Ok _ => row_writes db (snd out)
  | Err _ => snd out = db
  end.

(** Every character is white space. *)
Fixpoint all_space (s : string) : bool :=
  match s with
  | EmptyString => true
  | String a s' => is_space a && all_space s'
  end.

(** The record and the log entry the destructive import makes of a row, given
    the id the record gets. *)
Definition replace_record (ts : string) (i : Z) (r : CanonicalRow) : Item :=
  mkItem i (r_tyre_size r) (r_company r) (r_series r) (r_qty r) ts.

Definition replace_entry (ts : string) (i : Z) (r : CanonicalRow) : Txn :=
  mkTxn i (r_tyre_size r) (r_company r) (r_series r) (r_qty r)
        "replace_import" ts (Some "replace db from excel").

(** The record and the log entry the destructive import makes of a record
    of an exported frame. *)
Definition restored (ts : string) (it : Item) : Item :=
  mkItem (it_id it) (it_tyre_size it) (it_company it) (it_series it) (it_qty it) ts.

Definition restore_entry (ts : string) (it : Item) : Txn :=
  mkTxn (it_id it) (it_tyre_size it) (it_company it) (it_series it) (it_qty it)
        "replace_import" ts (Some "replace db from excel").

(* ------------------------------------------------------------------ *)
(** ** The items table as an ordered list *)

Lemma lookup_id_In (i : Z) (its : list Item) (it : Item) :
  lookup_id i its = Some it -> In it its /\ it_id it = i.
Proof.
  unfold lookup_id. intros H. apply find_some in H as [Hin Heq].
  split; [exact Hin | now apply Z.eqb_eq].
Qed.

Lemma lookup_id_None (i : Z) (its : list Item) :
  lookup_id i its = None -> Forall (fun it => it_id it <> i) its.
Proof.
  unfold lookup_id. intros H. apply Forall_forall. intros it Hin Heq.
  apply (find_none _ _ H) in Hin. apply Z.eqb_neq in Hin. contradiction.
Qed.

Lemma lookup_id_update (i j : Z) (f : Item -> Item) (its : list Item) :
  (forall it, it_id (f it) = it_id it) ->
  lookup_id j (update_where_id i f its) =
  option_map (fun it => if it_id it =? i then f it else it) (lookup_id j its).
Proof.
  intros Hf. unfold lookup_id, update_where_id.
  induction its as [|x tl IH]; simpl; [reflexivity|].
  destruct (it_id x =? i) eqn:Ei.
  - rewrite Hf. destruct (it_id x =? j); simpl; [now rewrite Ei | exact IH].
  - destruct (it_id x =? j); simpl; [now rewrite Ei | exact IH].
Qed.

Lemma update_where_id_ids (i : Z) (f : Item -> Item) (its : list Item) :
  (forall it, it_id (f it) = it_id it) ->
  map it_id (update_where_id i f its) = map it_id its.
Proof.
  intros Hf. unfold update_where_id. rewrite map_map. apply map_ext.
  intros it. destruct (it_id it =? i); [apply Hf | reflexivity].
Qed.

Lemma lookup_id_insert (j : Z) (it : Item) (its : list Item) :
  lookup_id (it_id it) its = None ->
  lookup_id j (insert_by_id it its) =
  if it_id it =? j then Some it else lookup_id j its.
Proof.
  unfold lookup_id. induction its as [|x tl IH]; simpl; intros Hnone.
  - reflexivity.
  - destruct (it_id x =? it_id it) eqn:Ex; [discriminate|].
    destruct (it_id it <? it_id x); simpl.
    + reflexivity.
    + rewrite (IH Hnone). destruct (it_id x =? j) eqn:Ej; [|reflexivity].
      apply Z.eqb_eq in Ej. apply Z.eqb_neq in Ex.
      destruct (it_id it =? j) eqn:Eij; [|reflexivity].
      apply Z.eqb_eq in Eij. congruence.
Qed.

Lemma insert_by_id_ids_In (it : Item) (its : list Item) (y : Z) :
  In y (map it_id (insert_by_id it its)) <-> y = it_id it \/ In y (map it_id its).
Proof.
  induction its as [|x tl IH]; simpl.
  - intuition.
  - destruct (it_id it <? it_id x); simpl; [intuition|].
    rewrite IH. intuition.
Qed.

Lemma increasing_insert (it : Item) (its : list Item) :
  increasing (map it_id its) ->
  lookup_id (it_id it) its = None ->
  increasing (map it_id (insert_by_id it its)).
Proof.
  induction its as [|x tl IH]; simpl; intros Hinc Hnone.
  - split; [constructor | exact I].
  - destruct Hinc as [Hx Htl].
    unfold lookup_id in Hnone. simpl in Hnone.
    destruct (it_id x =? it_id it) eqn:Ex; [discriminate|].
    apply Z.eqb_neq in Ex.
    destruct (it_id it <? it_id x) eqn:Elt; simpl.
    + apply Z.ltb_lt in Elt. repeat split; try assumption.
      constructor; [exact Elt|].
      eapply Forall_impl; [|exact Hx]. simpl. intros; lia.
    + apply Z.ltb_ge in Elt. split; [|now apply IH].
      apply Forall_forall. intros y Hy.
      apply insert_by_id_ids_In in Hy as [->|Hy]; [lia|].
      rewrite Forall_forall in Hx. now apply Hx.
Qed.

Lemma increasing_lookup (its : list Item) (it : Item) :
  increasing (map it_id its) -> In it its -> lookup_id (it_id it) its = Some it.
Proof.
  unfold lookup_id. induction its as [|x tl IH]; simpl; intros Hinc Hin.
  - contradiction.
  - destruct Hinc as [Hx Htl]. destruct Hin as [->|Hin].
    + now rewrite Z.eqb_refl.
    + destruct (it_id x =? it_id it) eqn:Ex; [|now apply IH].
      apply Z.eqb_eq in Ex. rewrite Forall_forall in Hx.
      assert (it_id x < it_id it) by (apply Hx; now apply in_map). lia.
Qed.

Lemma new_rowid_above (its : list Item) :
  Forall (fun it => it_id it < new_rowid its) its.
Proof.
  destruct its as [|x tl]; [constructor|].
  unfold new_rowid.
  assert (H : forall a l, a <= fold_right Z.max a l /\
                          Forall (fun y => y <= fold_right Z.max a l) l).
  { intros a l. induction l as [|y l IH]; simpl.
    - split; [lia | constructor].
    - destruct IH as [Ha Hl]. split; [lia|].
      constructor; [lia|]. eapply Forall_impl; [|exact Hl]. simpl. intros; lia. }
  destruct (H (it_id x) (map it_id tl)) as [Ha Hl].
  constructor; [lia|].
  rewrite Forall_map in Hl. eapply Forall_impl; [|exact Hl]. simpl. intros; lia.
Qed.

Lemma new_rowid_fresh (its : list Item) : lookup_id (new_rowid its) its = None.
Proof.
  unfold lookup_id. destruct (find _ its) as [it|] eqn:E; [|reflexivity].
  apply find_some in E as [Hin Heq]. apply Z.eqb_eq in Heq.
  pose proof (new_rowid_above its) as H. rewrite Forall_forall in H.
  specialize (H it Hin). lia.
Qed.

Lemma lookup_signature_In (s c se : option string) (its : list Item) (it : Item) :
  lookup_signature s c se its = Some it ->
  In it its /\ signature_where s c se it = true.
Proof. unfold lookup_signature. apply find_some. Qed.

Lemma increasing_order_by_id (its : list Item) :
  increasing (map it_id its) -> order_by_id its = its.
Proof.
  unfold order_by_id. induction its as [|x tl IH]; simpl; intros Hinc.
  - reflexivity.
  - destruct Hinc as [Hx Htl]. rewrite (IH Htl).
    destruct tl as [|y tl']; simpl; [reflexivity|].
    inversion Hx as [|? ? Hxy _]; subst.
    apply Z.ltb_lt in Hxy. now rewrite Hxy.
Qed.

(* ------------------------------------------------------------------ *)
(** ** What one row of the import does to the working store *)

Lemma merge_id_row_found (ts : string) (w : DB) (r : CanonicalRow) (i : Z) (it : Item) :
  r_id r = Some i -> lookup_id i (items w) = Some it ->
  merge_id_row ts w r =
  mkDB (update_where_id i
          (fun x => mkItem (it_id x) (r_tyre_size r) (r_company r) (r_series r)
                           (it_qty it + r_qty r) ts)
          (items w))
       (transactions w ++
        [mkTxn i (r_tyre_size r) (r_company r) (r_series r) (r_qty r)
               "import_upsert" ts (Some "import from excel")]).
Proof.
  intros Hi Hl. unfold merge_id_row, effect, upsert_id_row. rewrite Hi.
  cbn. rewrite Hl. reflexivity.
Qed.

Lemma merge_id_row_new (ts : string) (w : DB) (r : CanonicalRow) (i : Z) :
  r_id r = Some i -> lookup_id i (items w) = None ->
  merge_id_row ts w r =
  mkDB (insert_by_id
          (mkItem i (r_tyre_size r) (r_company r) (r_series r) (r_qty r) ts)
          (items w))
       (transactions w ++
        [mkTxn i (r_tyre_size r) (r_company r) (r_series r) (r_qty r)
               "import_upsert" ts (Some "import from excel")]).
Proof.
  intros Hi Hl. unfold merge_id_row, effect, upsert_id_row. rewrite Hi.
  cbn. rewrite Hl. unfold bind, execute, insert_item_with_id. cbn.
  rewrite Hl. reflexivity.
Qed.

Lemma merge_no_id_row_found (ts : string) (w : DB) (r : CanonicalRow) (it : Item) :
  lookup_signature (r_tyre_size r) (r_company r) (r_series r) (items w) = Some it ->
  merge_no_id_row ts w r =
  mkDB (update_where_id (it_id it)
          (fun x => mkItem (it_id x) (it_tyre_size x) (it_company x) (it_series x)
                           (it_qty it + r_qty r) ts)
          (items w))
       (transactions w ++
        [mkTxn (it_id it) (r_tyre_size r) (r_company r) (r_series r) (r_qty r)
               "import_merge_signature" ts (Some "imported by signature")]).
Proof.
  intros Hl. unfold merge_no_id_row, effect, upsert_no_id_row.
  cbn. rewrite Hl. reflexivity.
Qed.

Lemma merge_no_id_row_new (ts : string) (w : DB) (r : CanonicalRow) :
  lookup_signature (r_tyre_size r) (r_company r) (r_series r) (items w) = None ->
  merge_no_id_row ts w r =
  mkDB (insert_by_id
          (mkItem (new_rowid (items w)) (r_tyre_size r) (r_company r) (r_series r)
                  (r_qty r) ts)
          (items w))
       (transactions w ++
        [mkTxn (new_rowid (items w)) (r_tyre_size r) (r_company r) (r_series r)
               (r_qty r) "import_new" ts (Some "new row from excel")]).
Proof.
  intros Hl. unfold merge_no_id_row, effect, upsert_no_id_row.
  cbn. rewrite Hl. reflexivity.
Qed.

(* ------------------------------------------------------------------ *)
(** ** Running the loops on a connection that may fail *)

Ltac sql_unfold :=
  unfold find_item_by_signature_body;
  unfold bind, execute, commit, ret, raise, select_qty_by_id, select_item_by_id,
    select_by_signature, update_item, update_qty, insert_item_with_id,
    insert_item, insert_transaction; cbn.

Ltac sql_stop :=
  right; do 2 eexists; split; [reflexivity | split; [reflexivity | assumption]].

Ltac sql_done :=
  left; do 2 eexists; split; [reflexivity | split; reflexivity].

Ltac sql_call :=
  match goal with
  | |- context [if ?f ?n then _ else _] =>
      let F := fresh "F" in destruct (f n) eqn:F; [sql_stop | cbn]
  end.

Lemma runs_id_row (fault : nat -> bool) (ts : string) (r : CanonicalRow) (i : Z) :
  r_id r = Some i ->
  runs fault (upsert_id_row fault ts r) (fun w => merge_id_row ts w r).
Proof.
  intros Hi c.
  destruct (lookup_id i (items (work c))) as [it|] eqn:Hl.
  - rewrite (merge_id_row_found ts _ r i it Hi Hl).
    unfold upsert_id_row. rewrite Hi. sql_unfold.
    sql_call. rewrite Hl. cbn. sql_call. sql_call. sql_done.
  - rewrite (merge_id_row_new ts _ r i Hi Hl).
    unfold upsert_id_row. rewrite Hi. sql_unfold.
    sql_call. rewrite Hl. cbn. sql_call. rewrite Hl. sql_call. sql_done.
Qed.

Lemma runs_no_id_row (fault : nat -> bool) (ts : string) (r : CanonicalRow) :
  runs fault (upsert_no_id_row fault ts r) (fun w => merge_no_id_row ts w r).
Proof.
  intros c.
  destruct (lookup_signature (r_tyre_size r) (r_company r) (r_series r)
              (items (work c))) as [it|] eqn:Hl.
  - rewrite (merge_no_id_row_found ts _ r it Hl).
    unfold upsert_no_id_row. sql_unfold.
    sql_call. rewrite Hl. cbn. sql_call. sql_call. sql_done.
  - rewrite (merge_no_id_row_new ts _ r Hl).
    unfold upsert_no_id_row. sql_unfold.
    sql_call. rewrite Hl. cbn. sql_call. sql_call. sql_done.
Qed.

Lemma runs_for_each (fault : nat -> bool) (body : CanonicalRow -> SQL unit)
    (step : DB -> CanonicalRow -> DB) (rows : list CanonicalRow) :
  Forall (fun r => runs fault (body r) (fun w => step w r)) rows ->
  runs fault (for_each rows body) (fun w => fold_left step rows w).
Proof.
  induction rows as [|r tl IH]; intros Hall c; simpl.
  - left. exists tt, c. repeat split.
  - inversion Hall as [|? ? Hr Htl]; subst. unfold bind.
    destruct (Hr c) as [(a & c1 & E1 & D1 & W1) | (n & c1 & E1 & D1 & F1)];
      rewrite E1.
    + destruct (IH Htl c1) as [(b & c2 & E2 & D2 & W2) | (n & c2 & E2 & D2 & F2)].
      * left. exists b, c2. rewrite E2, D2, D1, W2, W1. repeat split.
      * right. exists n, c2. rewrite E2, D2, D1. repeat split. exact F2.
    + right. exists n, c1. repeat split; assumption.
Qed.

(** The import either commits the store the two loops produce or leaves the
    store as it found it. *)
Lemma upsert_outcome (fault : nat -> bool) (ts : string)
    (rows : list CanonicalRow) (db : DB) :
  upsert_items_from_df fault ts (Frame rows) db = (Ok tt, merged ts rows db) \/
  exists n, fault n = true /\
    upsert_items_from_df fault ts (Frame rows) db = (Err (StoreFault n), db).
Proof.
  unfold upsert_items_from_df, with_conn, upsert_body, merged.
  set (ids := filter (fun r => notna (r_id r)) rows).
  set (noids := filter (fun r => isna (r_id r)) rows).
  assert (R1 : runs fault (for_each ids (upsert_id_row fault ts))
                 (fun w => fold_left (merge_id_row ts) ids w)).
  { apply runs_for_each. apply Forall_forall. intros r Hr.
    apply filter_In in Hr as [_ Hr]. destruct (r_id r) as [i|] eqn:Hi;
      [|discriminate]. now apply (runs_id_row fault ts r i). }
  assert (R2 : runs fault (for_each noids (upsert_no_id_row fault ts))
                 (fun w => fold_left (merge_no_id_row ts) noids w)).
  { apply runs_for_each. apply Forall_forall. intros r _. apply runs_no_id_row. }
  unfold bind.
  destruct (R1 (mkConn db db 0%nat)) as [(a & c1 & E1 & D1 & W1) | (n & c1 & E1 & D1 & F1)];
    rewrite E1; cbn in D1.
  - destruct (R2 c1) as [(b & c2 & E2 & D2 & W2) | (n & c2 & E2 & D2 & F2)];
      rewrite E2.
    + unfold commit. destruct (fault (calls c2)) eqn:F.
      * right. exists (calls c2). split; [exact F|]. cbn. now rewrite D2, D1.
      * left. cbn. rewrite W2, W1. cbn. now destruct b.
    + right. exists n. split; [exact F2|]. cbn. now rewrite D2, D1.
  - right. exists n. split; [exact F1|]. cbn. now rewrite D1.
Qed.

Lemma upsert_no_fault (ts : string) (rows : list CanonicalRow) (db : DB) :
  upsert_items_from_df no_fault ts (Frame rows) db = (Ok tt, merged ts rows db).
Proof.
  destruct (upsert_outcome no_fault ts rows db) as [H | (n & F & _)];
    [exact H | discriminate].
Qed.

(* ------------------------------------------------------------------ *)
(** ** Audited mutations *)

Lemma audited_update (w : DB) (i : Z) (it : Item) (f : Item -> Item) (e : Txn) :
  lookup_id i (items w) = Some it ->
  (forall x, it_id (f x) = it_id x) ->
  (forall x, it_qty (f x) = it_qty it + tx_change e) ->
  tx_item_id e = i ->
  audited_step w (mkDB (update_where_id i f (items w)) (transactions w ++ [e])).
Proof.
  intros Hl Hid Hq He. exists e. unfold qty_of. cbn [items transactions].
  split; [reflexivity|]. rewrite He. split.
  - rewrite (lookup_id_update i i f _ Hid), Hl. cbn.
    apply lookup_id_In in Hl as [_ Hi]. rewrite Hi, Z.eqb_refl. apply Hq.
  - intros j Hj. rewrite (lookup_id_update i j f _ Hid).
    destruct (lookup_id j (items w)) as [x|] eqn:Hx; cbn [option_map]; [|reflexivity].
    apply lookup_id_In in Hx as [_ Hx].
    destruct (it_id x =? i) eqn:E; [|reflexivity].
    apply Z.eqb_eq in E. congruence.
Qed.

Lemma audited_insert (w : DB) (x : Item) (e : Txn) :
  lookup_id (it_id x) (items w) = None ->
  tx_item_id e = it_id x ->
  tx_change e = it_qty x ->
  audited_step w (mkDB (insert_by_id x (items w)) (transactions w ++ [e])).
Proof.
  intros Hl He Hq. exists e. unfold qty_of. cbn [items transactions].
  split; [reflexivity|]. rewrite He. split.
  - rewrite (lookup_id_insert _ x _ Hl), Z.eqb_refl, Hl. lia.
  - intros j Hj. rewrite (lookup_id_insert _ x _ Hl).
    destruct (it_id x =? j) eqn:E; [|reflexivity].
    apply Z.eqb_eq in E. congruence.
Qed.

Lemma wf_update (w : DB) (i : Z) (f : Item -> Item) (l : list Txn) :
  (forall x, it_id (f x) = it_id x) ->
  wf w -> wf (mkDB (update_where_id i f (items w)) l).
Proof.
  intros Hid Hw. unfold wf. cbn. now rewrite update_where_id_ids.
Qed.

Lemma wf_insert (w : DB) (x : Item) (l : list Txn) :
  lookup_id (it_id x) (items w) = None ->
  wf w -> wf (mkDB (insert_by_id x (items w)) l).
Proof.
  intros Hl Hw. unfold wf. cbn. now apply increasing_insert.
Qed.

Lemma wf_lookup_signature (w : DB) (s c se : option string) (it : Item) :
  wf w -> lookup_signature s c se (items w) = Some it ->
  lookup_id (it_id it) (items w) = Some it.
Proof.
  intros Hw Hl. apply lookup_signature_In in Hl as [Hin _].
  now apply increasing_lookup.
Qed.

Lemma merge_id_row_audited (ts : string) (w : DB) (r : CanonicalRow) (i : Z) :
  r_id r = Some i -> wf w ->
  audited_step w (merge_id_row ts w r) /\ wf (merge_id_row ts w r).
Proof.
  intros Hi Hw. destruct (lookup_id i (items w)) as [it|] eqn:Hl.
  - rewrite (merge_id_row_found ts w r i it Hi Hl). split.
    + now apply (audited_update w i it).
    + now apply wf_update.
  - rewrite (merge_id_row_new ts w r i Hi Hl). split.
    + now apply audited_insert.
    + now apply wf_insert.
Qed.

Lemma merge_no_id_row_audited (ts : string) (w : DB) (r : CanonicalRow) :
  wf w ->
  audited_step w (merge_no_id_row ts w r) /\ wf (merge_no_id_row ts w r).
Proof.
  intros Hw.
  destruct (lookup_signature (r_tyre_size r) (r_company r) (r_series r) (items w))
    as [it|] eqn:Hl.
  - rewrite (merge_no_id_row_found ts w r it Hl). split.
    + apply (audited_update w (it_id it) it); try reflexivity.
      now apply (wf_lookup_signature w _ _ _ it Hw Hl).
    + now apply wf_update.
  - rewrite (merge_no_id_row_new ts w r Hl). split.
    + apply audited_insert; try reflexivity. apply new_rowid_fresh.
    + apply wf_insert; [apply new_rowid_fresh | exact Hw].
Qed.

Lemma audited_app (n m : nat) (a b c : DB) :
  audited n a b -> audited m b c -> audited (n + m) a c.
Proof.
  induction 1 as [|n a a1 b Hs Hr IH]; intros Hm; simpl.
  - exact Hm.
  - econstructor; [exact Hs | now apply IH].
Qed.

Lemma audited_fold (step : DB -> CanonicalRow -> DB) (rows : list CanonicalRow) :
  Forall (fun r => forall w, wf w -> audited_step w (step w r) /\ wf (step w r)) rows ->
  forall w, wf w ->
    audited (List.length rows) w (fold_left step rows w) /\ wf (fold_left step rows w).
Proof.
  induction 1 as [|r tl Hr Htl IH]; intros w Hw; simpl.
  - split; [constructor | exact Hw].
  - destruct (Hr w Hw) as [Hs Hw1]. destruct (IH _ Hw1) as [Ha Hw2].
    split; [econstructor; eassumption | exact Hw2].
Qed.

Lemma filter_split_length {A : Type} (p : A -> bool) (l : list A) :
  (List.length (filter p l) + List.length (filter (fun x => negb (p x)) l))%nat = List.length l.
Proof.
  induction l as [|x tl IH]; simpl; [reflexivity|].
  destruct (p x); simpl; lia.
Qed.

Lemma merged_audited (ts : string) (rows : list CanonicalRow) (db : DB) :
  wf db -> audited (List.length rows) db (merged ts rows db) /\ wf (merged ts rows db).
Proof.
  intros Hw. unfold merged.
  set (ids := filter (fun r => notna (r_id r)) rows).
  set (noids := filter (fun r => isna (r_id r)) rows).
  assert (H1 : Forall (fun r => forall w, wf w ->
            audited_step w (merge_id_row ts w r) /\ wf (merge_id_row ts w r)) ids).
  { apply Forall_forall. intros r Hr w Hw'. apply filter_In in Hr as [_ Hr].
    destruct (r_id r) as [i|] eqn:Hi; [|discriminate].
    now apply (merge_id_row_audited ts w r i). }
  assert (H2 : Forall (fun r => forall w, wf w ->
            audited_step w (merge_no_id_row ts w r) /\ wf (merge_no_id_row ts w r)) noids).
  { apply Forall_forall. intros r _ w Hw'. now apply merge_no_id_row_audited. }
  destruct (audited_fold _ _ H1 db Hw) as [A1 W1].
  destruct (audited_fold _ _ H2 _ W1) as [A2 W2].
  split; [|exact W2].
  rewrite <- (filter_split_length (fun r => notna (r_id r)) rows).
  eapply audited_app; [exact A1 | exact A2].
Qed.

Lemma audited_one (db db' : DB) : audited_step db db' -> audited 1 db db'.
Proof. intros H. econstructor; [exact H | constructor]. Qed.

Ltac fault_cases f :=
  repeat match goal with
         | |- context [f ?n] => destruct (f n); cbn; try reflexivity
         end.

Lemma upsert_audited (fault : nat -> bool) (ts : string) (df : DataFrame) (db : DB) :
  wf db ->
  atomic_audited (List.length (frame_rows df)) db (upsert_items_from_df fault ts df db).
Proof.
  intros Hw. destruct df as [|rows].
  - reflexivity.
  - destruct (upsert_outcome fault ts rows db) as [E | (n & _ & E)]; rewrite E.
    + apply merged_audited, Hw.
    + reflexivity.
Qed.

Lemma add_stock_audited (fault : nat -> bool) (ts : string) (item_id : option Z)
    (tyre_size company series : option string) (qty : Z) (note : option string)
    (db : DB) :
  wf db ->
  atomic_audited 1 db (add_stock fault ts item_id tyre_size company series qty note db).
Proof.
  intros Hw. unfold atomic_audited, add_stock, with_conn, add_stock_body.
  destruct item_id as [i|]; sql_unfold.
  - destruct (fault 0%nat); cbn; [reflexivity|].
    destruct (lookup_id i (items db)) as [it|] eqn:Hl; cbn.
    + fault_cases fault. apply audited_one. now apply (audited_update db i it).
    + destruct (fault 1%nat); cbn; [reflexivity|]. rewrite Hl. cbn.
      fault_cases fault. apply audited_one. now apply audited_insert.
  - fault_cases fault. apply audited_one.
    apply audited_insert; try reflexivity. apply new_rowid_fresh.
Qed.

Lemma remove_stock_by_id_audited (fault : nat -> bool) (ts : string)
    (item_id qty : Z) (reason : string) (note : option string) (db : DB) :
  wf db ->
  atomic_audited 1 db (remove_stock_by_id fault ts item_id qty reason note db).
Proof.
  intros Hw.
  unfold atomic_audited, remove_stock_by_id, with_conn, remove_stock_by_id_body.
  sql_unfold. destruct (fault 0%nat); cbn; [reflexivity|].
  destruct (lookup_id item_id (items db)) as [it|] eqn:Hl; cbn; [|reflexivity].
  destruct (qty >? it_qty it); cbn; [reflexivity|].
  fault_cases fault. apply audited_one.
  apply (audited_update db item_id it); try reflexivity; assumption.
Qed.

Lemma remove_stock_by_signature_audited (fault : nat -> bool) (ts : string)
    (tyre_size company series : option string) (qty : Z) (reason : string)
    (note : option string) (db : DB) :
  wf db ->
  atomic_audited 1 db
    (remove_stock_by_signature fault ts tyre_size company series qty reason note db).
Proof.
  intros Hw.
  unfold atomic_audited, remove_stock_by_signature, with_conn,
    remove_stock_by_signature_body.
  sql_unfold. destruct (fault 0%nat); cbn; [reflexivity|].
  destruct (lookup_signature tyre_size company series (items db)) as [it|] eqn:Hl;
    cbn; [|reflexivity].
  destruct (qty >? it_qty it); cbn; [reflexivity|].
  fault_cases fault. apply audited_one.
  apply (audited_update db (it_id it) it); try reflexivity.
  now apply (wf_lookup_signature db tyre_size company series).
Qed.

(* ------------------------------------------------------------------ *)
(** ** Properties of the specification *)

(** C1.  Every successful mutation of a quantity by [upsert_items_from_df],
    [add_stock], [remove_stock_by_id] or [remove_stock_by_signature] appends
    exactly one audit entry whose delta is the change of the quantity of the
    record it names, and no other quantity moves; the import is one such
    mutation per row.  Quantity change and entry are committed together:
    whichever call on the connection fails, the operation leaves the store
    as it found it. *)
Theorem audit_entry_per_mutation (fault : nat -> bool) (ts : string) (db : DB) :
  wf db ->
  (forall df,
      atomic_audited (List.length (frame_rows df)) db
        (upsert_items_from_df fault ts df db)) /\
  (forall item_id tyre_size company series qty note,
      atomic_audited 1 db
        (add_stock fault ts item_id tyre_size company series qty note db)) /\
  (forall item_id qty reason note,
      atomic_audited 1 db
        (remove_stock_by_id fault ts item_id qty reason note db)) /\
  (forall tyre_size company series qty reason note,
      atomic_audited 1 db
        (remove_stock_by_signature fault ts tyre_size company series qty reason
           note db)).
Proof.
  intros Hw. repeat split; intros.
  - now apply upsert_audited.
  - now apply add_stock_audited.
  - now apply remove_stock_by_id_audited.
  - now apply remove_stock_by_signature_audited.
Qed.

Lemma audit_entry_per_mutation_witness :
  wf sample_db /\
  atomic_audited 1 sample_db
    (remove_stock_by_id (fun n => Nat.eqb n 2) "t1" 1 4 "sale" None sample_db).
Proof.
  split.
  - unfold wf; cbn; repeat constructor.
  - apply (audit_entry_per_mutation (fun n => Nat.eqb n 2) "t1" sample_db).
    unfold wf; cbn; repeat constructor.
Defined.

(** C2, as the code has it.  The import runs the rows that carry an id first,
    in their order, then the rows without id, in their order, and commits
    once, after the last row.  So it either commits all rows or, when any
    call on the connection fails, none: the store is left as it was before
    the import; without store failure a frame with columns is always
    imported. *)
Theorem merge_is_one_transaction (fault : nat -> bool) (ts : string)
    (df : DataFrame) (db : DB) :
  match fst (upsert_items_from_df fault ts df db) with
  | Ok _ =>
      snd (upsert_items_from_df fault ts df db) =
      fold_left (merge_no_id_row ts)
        (filter (fun r => isna (r_id r)) (frame_rows df))
        (fold_left (merge_id_row ts)
           (filter (fun r => notna (r_id r)) (frame_rows df)) db)
  | Err _ => snd (upsert_items_from_df fault ts df db) = db
  end /\
  (forall rows,
      upsert_items_from_df no_fault ts (Frame rows) db =
      (Ok tt,
       fold_left (merge_no_id_row ts) (filter (fun r => isna (r_id r)) rows)
         (fold_left (merge_id_row ts) (filter (fun r => notna (r_id r)) rows) db))).
Proof.
  split.
  - destruct df as [|rows].
    + reflexivity.
    + destruct (upsert_outcome fault ts rows db) as [E | (n & _ & E)];
        rewrite E; reflexivity.
  - intros rows. apply upsert_no_fault.
Qed.

(** C2, as the specification states it, fails twice.  With a store failure
    in the first call made for the second row (call 3), the first row, whose
    three calls all succeeded, is not in the store afterwards.  And a row
    without id that precedes a row with id is processed after it: the log
    of the import differs from the log of the rows taken in order. *)
Lemma merge_keeps_no_prior_row_nor_order :
  upsert_items_from_df (fun n => Nat.eqb n 3) "t1"
    (Frame [mkRow (Some 1) (Some "155 70 R13") (Some "Acme") None 10;
            mkRow (Some 2) (Some "185 65 R14") None None 4]) empty_db
  = (Err (StoreFault 3), empty_db) /\
  map tx_reason
    (transactions
       (snd (upsert_items_from_df no_fault "t1"
               (Frame [mkRow None (Some "155 70 R13") (Some "Acme") None 5;
                       mkRow (Some 1) (Some "155 70 R13") (Some "Acme") None 10])
               empty_db)))
  = ["import_upsert"; "import_merge_signature"] /\
  map tx_reason
    (transactions
       (snd (spec_merge_in_order no_fault "t1"
               [mkRow None (Some "155 70 R13") (Some "Acme") None 5;
                mkRow (Some 1) (Some "155 70 R13") (Some "Acme") None 10]
               empty_db)))
  = ["import_new"; "import_upsert"].
Proof. repeat split. Qed.

(* ------------------------------------------------------------------ *)
(** ** The signature WHERE clause *)

Lemma sql_holds_and (x y : option bool) :
  sql_holds (sql_and x y) = sql_holds x && sql_holds y.
Proof. destruct x as [[|]|], y as [[|]|]; reflexivity. Qed.

Lemma sql_nullable_eq (a b : option string) :
  sql_holds (sql_or (sql_eq a b) (sql_and (sql_is_null a) (sql_is_null b))) = true
  <-> a = b.
Proof.
  destruct a as [x|], b as [y|]; cbn; try (split; [discriminate | congruence]).
  - destruct (String.eqb x y) eqn:E; cbn.
    + apply String.eqb_eq in E. subst. tauto.
    + apply String.eqb_neq in E. split; [discriminate | congruence].
  - tauto.
Qed.

Lemma sql_size_eq (a : option string) (s : string) :
  sql_holds (sql_eq a (Some s)) = true <-> a = Some s.
Proof.
  destruct a as [x|]; cbn; [|split; [discriminate | congruence]].
  destruct (String.eqb x s) eqn:E.
  - apply String.eqb_eq in E. subst. tauto.
  - apply String.eqb_neq in E. split; [discriminate | congruence].
Qed.

Lemma signature_where_present (s : string) (c se : option string) (it : Item) :
  signature_where (Some s) c se it = true <->
  it_tyre_size it = Some s /\ it_company it = c /\ it_series it = se.
Proof.
  unfold signature_where. rewrite !sql_holds_and, !andb_true_iff.
  rewrite sql_size_eq, !sql_nullable_eq. tauto.
Qed.

(** [tyre_size = NULL] is never true: no row is kept. *)
Lemma signature_where_absent (c se : option string) (it : Item) :
  signature_where None c se it = false.
Proof.
  unfold signature_where. rewrite !sql_holds_and.
  destruct (it_tyre_size it); reflexivity.
Qed.

Lemma lookup_signature_absent (c se : option string) (its : list Item) :
  lookup_signature None c se its = None.
Proof.
  unfold lookup_signature. induction its as [|x tl IH]; cbn; [reflexivity|].
  now rewrite signature_where_absent.
Qed.


Lemma find_lowest_id (p : Item -> bool) (its : list Item) (it x : Item) :
  increasing (map it_id its) ->
  find p its = Some it -> In x its -> p x = true -> it_id it <= it_id x.
Proof.
  induction its as [|y tl IH]; cbn; intros Hinc Hf Hin Hp; [contradiction|].
  destruct Hinc as [Hy Htl]. destruct (p y) eqn:Ey.
  - injection Hf as <-. destruct Hin as [->|Hin]; [lia|].
    rewrite Forall_forall in Hy.
    assert (it_id y < it_id x) by (apply Hy; now apply in_map). lia.
  - destruct Hin as [->|Hin]; [congruence|]. now apply IH.
Qed.

Lemma import_one_id_row (ts : string) (r : CanonicalRow) (i : Z) (db : DB) :
  r_id r = Some i ->
  upsert_items_from_df no_fault ts (Frame [r]) db = (Ok tt, merge_id_row ts db r).
Proof.
  intros Hi. rewrite upsert_no_fault. unfold merged, isna. cbn.
  now rewrite Hi.
Qed.

Lemma import_one_no_id_row (ts : string) (r : CanonicalRow) (db : DB) :
  r_id r = None ->
  upsert_items_from_df no_fault ts (Frame [r]) db = (Ok tt, merge_no_id_row ts db r).
Proof.
  intros Hi. rewrite upsert_no_fault. unfold merged, isna. cbn.
  now rewrite Hi.
Qed.






(** C5.  Removing by id more than a record holds raises the "Not enough
    stock" error, which carries the current and the requested quantity, and
    leaves the store as it is: same records, same timestamps, same log. *)
Theorem remove_more_than_stock_fails (fault : nat -> bool) (ts : string)
    (item_id qty : Z) (reason : string) (note : option string) (db : DB)
    (it : Item) :
  fault 0%nat = false ->
  lookup_id item_id (items db) = Some it ->
  qty > it_qty it ->
  remove_stock_by_id fault ts item_id qty reason note db =
  (Err (ValueError_not_enough_stock (it_qty it) qty), db).
Proof.
  intros F Hl Hq.
  unfold remove_stock_by_id, with_conn, remove_stock_by_id_body. sql_unfold.
  rewrite F, Hl. cbn.
  assert (E : (qty >? it_qty it) = true) by (apply Z.gtb_lt; lia).
  now rewrite E.
Qed.

Lemma remove_more_than_stock_fails_witness :
  no_fault 0%nat = false /\
  lookup_id 2 (items sample_db) =
    Some (mkItem 2 (Some "155 70 R13") None None 3 "t0") /\
  4 > 3 /\
  remove_stock_by_id no_fault "t1" 2 4 "sale" None sample_db =
  (Err (ValueError_not_enough_stock 3 4), sample_db).
Proof.
  split; [reflexivity|]. split; [reflexivity|]. split; [reflexivity|].
  apply (remove_more_than_stock_fails no_fault "t1" 2 4 "sale" None sample_db
           (mkItem 2 (Some "155 70 R13") None None 3 "t0"));
    reflexivity.
Defined.

Lemma insert_by_id_length (x : Item) (its : list Item) :
  List.length (insert_by_id x its) = S (List.length its).
Proof.
  induction its as [|y tl IH]; cbn; [reflexivity|].
  destruct (it_id x <? it_id y); cbn; [reflexivity | now rewrite IH].
Qed.

Lemma add_stock_without_id (ts : string) (tyre_size company series : option string)
    (qty : Z) (note : option string) (db : DB) :
  add_stock no_fault ts None tyre_size company series qty note db =
  (Ok (new_rowid (items db)),
   mkDB (insert_by_id
           (mkItem (new_rowid (items db)) tyre_size company series qty ts)
           (items db))
        (transactions db ++
         [mkTxn (new_rowid (items db)) tyre_size company series qty
                "stock_in" ts note])).
Proof. reflexivity. Qed.

(** C6.  [add_stock] without id never looks for a record of the same
    signature: it inserts a record under an id the store assigns, which no
    record of the store has, and keeps all records there were.  Called twice
    with the same size, company, series and quantity it leaves two records
    more, under two different ids, each holding the quantity once. *)
Theorem add_stock_without_id_inserts (ts ts' : string)
    (tyre_size company series : option string) (qty : Z) (note : option string)
    (db : DB) :
  let i1 := new_rowid (items db) in
  let db1 := snd (add_stock no_fault ts None tyre_size company series qty note db) in
  let i2 := new_rowid (items db1) in
  let db2 := snd (add_stock no_fault ts' None tyre_size company series qty note db1) in
  add_stock no_fault ts None tyre_size company series qty note db =
    (Ok i1,
     mkDB (insert_by_id (mkItem i1 tyre_size company series qty ts) (items db))
          (transactions db ++
           [mkTxn i1 tyre_size company series qty "stock_in" ts note])) /\
  lookup_id i1 (items db) = None /\
  (forall j, j <> i1 -> lookup_id j (items db1) = lookup_id j (items db)) /\
  fst (add_stock no_fault ts' None tyre_size company series qty note db1) = Ok i2 /\
  i1 <> i2 /\
  lookup_id i1 (items db2) = Some (mkItem i1 tyre_size company series qty ts) /\
  lookup_id i2 (items db2) = Some (mkItem i2 tyre_size company series qty ts') /\
  List.length (items db2) = S (S (List.length (items db))).
Proof.
  intros i1 db1 i2 db2.
  assert (F1 : lookup_id i1 (items db) = None) by apply new_rowid_fresh.
  assert (F2 : lookup_id i2 (items db1) = None) by apply new_rowid_fresh.
  assert (L1 : forall j, lookup_id j (items db1) =
                 if i1 =? j then Some (mkItem i1 tyre_size company series qty ts)
                 else lookup_id j (items db)).
  { intros j. unfold db1. rewrite add_stock_without_id. cbn [snd items].
    now rewrite lookup_id_insert. }
  assert (N : i1 <> i2).
  { intros E. rewrite <- E, L1, Z.eqb_refl in F2. discriminate. }
  assert (L2 : forall j, lookup_id j (items db2) =
                 if i2 =? j then Some (mkItem i2 tyre_size company series qty ts')
                 else lookup_id j (items db1)).
  { intros j. unfold db2. rewrite add_stock_without_id. cbn [snd items].
    now rewrite lookup_id_insert. }
  repeat split.
  - exact F1.
  - intros j Hj. rewrite L1. destruct (i1 =? j) eqn:E; [|reflexivity].
    apply Z.eqb_eq in E. congruence.
  - exact N.
  - rewrite L2, L1, Z.eqb_refl. destruct (i2 =? i1) eqn:E; [|reflexivity].
    apply Z.eqb_eq in E. congruence.
  - now rewrite L2, Z.eqb_refl.
  - unfold db2. rewrite add_stock_without_id. cbn [snd items].
    rewrite insert_by_id_length. unfold db1. rewrite add_stock_without_id.
    cbn [snd items]. now rewrite insert_by_id_length.
Qed.

(* ------------------------------------------------------------------ *)
(** ** The header check of the normaliser *)

Lemma dict_get_fold_none (key : string) (d : list (string * string))
    (acc : option string) :
  fold_left (fun a kv => if String.eqb (fst kv) key then Some (snd kv) else a) d acc
    = None <->
  acc = None /\ forall kv, In kv d -> fst kv <> key.
Proof.
  revert acc. induction d as [|kv tl IH]; intros acc; cbn.
  - intuition.
  - rewrite IH. destruct (String.eqb (fst kv) key) eqn:E.
    + apply String.eqb_eq in E. split.
      * intros [H _]. discriminate.
      * intros [_ H]. exfalso. apply (H kv); [now left | exact E].
    + apply String.eqb_neq in E. split.
      * intros [Ha H]. split; [exact Ha|]. intros kv' [<-|Hin]; [exact E | now apply H].
      * intros [Ha H]. split; [exact Ha|]. intros kv' Hin. apply H. now right.
Qed.

Lemma dict_has_normalize_cols (key : string) (cols : list string) :
  dict_has key (normalize_cols cols) = false <->
  forall c, In c cols -> strip (lower c) <> key.
Proof.
  unfold dict_has, dict_get, normalize_cols.
  destruct (fold_left _ _ None) as [v|] eqn:E; cbn.
  - split; [discriminate|]. intros H.
    assert (N : Some v = None); [|discriminate]. rewrite <- E.
    apply dict_get_fold_none. split; [reflexivity|].
    intros kv Hin. apply in_map_iff in Hin as (c & <- & Hc). cbn. now apply H.
  - split; [|reflexivity]. intros _ c Hc.
    apply dict_get_fold_none in E as [_ H].
    apply (H (strip (lower c), c)). apply in_map_iff. now exists c.
Qed.

(** C7, as the code has it.  When no column of the sheet, lower-cased and
    stripped, is the required name [r] ("id", "tyre size" or "quantity"),
    [read_excel_to_df] raises the ValueError whose message lists the three
    required names, whichever of them is missing, and the columns found;
    the import started from that sheet ends with this error, whatever call
    on the connection would fail, and leaves the store as it is. *)
Theorem missing_column_aborts_import (py_int_of_str : string -> option Z)
    (py_str_of_num : Z -> string) (fault : nat -> bool) (ts : string)
    (df : Table) (db : DB) (r : string) :
  In r required ->
  (forall c, In c (columns df) -> strip (lower c) <> r) ->
  read_excel_to_df py_int_of_str py_str_of_num df =
    Err (ValueError_columns ["id"; "tyre size"; "quantity"] (columns df)) /\
  import_merge py_int_of_str py_str_of_num fault ts df db =
    (Err (ValueError_columns ["id"; "tyre size"; "quantity"] (columns df)), db).
Proof.
  intros Hr Hmiss.
  assert (E : read_excel_to_df py_int_of_str py_str_of_num df =
              Err (ValueError_columns required (columns df))).
  { unfold read_excel_to_df.
    destruct (forallb _ required) eqn:F; [|reflexivity].
    rewrite forallb_forall in F. specialize (F r Hr).
    apply dict_has_normalize_cols in Hmiss. congruence. }
  split; [exact E|]. unfold import_merge. now rewrite E.
Qed.

Lemma missing_column_aborts_import_witness :
  In "tyre size" required /\
  read_excel_to_df (fun _ => None) (fun _ => "0")
    (mkTable [" ID "; "Quantity"; "Company"] [[Num 1; Num 4; Str "Acme"]]) =
  Err (ValueError_columns ["id"; "tyre size"; "quantity"]
         [" ID "; "Quantity"; "Company"]) /\
  import_merge (fun _ => None) (fun _ => "0") no_fault "t1"
    (mkTable [" ID "; "Quantity"; "Company"] [[Num 1; Num 4; Str "Acme"]])
    sample_db =
  (Err (ValueError_columns ["id"; "tyre size"; "quantity"]
          [" ID "; "Quantity"; "Company"]), sample_db).
Proof.
  split; [cbn; tauto|].
  apply (missing_column_aborts_import (fun _ => None) (fun _ => "0") no_fault
           "t1" (mkTable [" ID "; "Quantity"; "Company"]
                   [[Num 1; Num 4; Str "Acme"]])
           sample_db "tyre size").
  - cbn; tauto.
  - cbn. intros c [<-|[<-|[<-|[]]]]; cbn; discriminate.
Defined.

(** C7 as the specification has it does not hold: the error does not carry
    the list of the missing fields.  A sheet with the headers "ID" and
    "Tyre Size" lacks the quantity only, and the message lists "id" and
    "tyre size" as well. *)
Lemma message_is_not_the_missing_fields :
  missing_fields ["ID"; "Tyre Size"] = ["quantity"] /\
  exists named,
    read_excel_to_df (fun _ => None) (fun _ => "0")
      (mkTable ["ID"; "Tyre Size"] [[Num 1; Str "185 65 R14"]]) =
    Err (ValueError_columns named ["ID"; "Tyre Size"]) /\
    named <> missing_fields ["ID"; "Tyre Size"] /\
    In "id" named /\ ~ In "id" (missing_fields ["ID"; "Tyre Size"]).
Proof.
  split; [reflexivity|]. exists ["id"; "tyre size"; "quantity"].
  split; [reflexivity|]. split; [discriminate|]. split; [cbn; tauto|].
  cbn. intros [H|[]]. discriminate H.
Qed.

(** A header that ends in a no-break space is a header of that name. *)
Lemma no_break_space_is_stripped :
  strip (lower (" Quantity" ++ String (ascii_of_nat 160) "")) = "quantity".
Proof. reflexivity. Qed.

(* ------------------------------------------------------------------ *)
(** ** Export and re-import *)

Lemma update_where_id_other (i : Z) (f : Item -> Item) (its : list Item) :
  Forall (fun it => it_id it <> i) its -> update_where_id i f its = its.
Proof.
  unfold update_where_id. induction 1 as [|x tl Hx _ IH]; cbn; [reflexivity|].
  apply Z.eqb_neq in Hx. now rewrite Hx, IH.
Qed.

Lemma lookup_id_app_other (i : Z) (pre suf : list Item) :
  Forall (fun it => it_id it <> i) pre -> lookup_id i (pre ++ suf) = lookup_id i suf.
Proof.
  unfold lookup_id. induction 1 as [|x tl Hx _ IH]; cbn; [reflexivity|].
  apply Z.eqb_neq in Hx. now rewrite Hx.
Qed.

Lemma filter_rows_with_id (its : list Item) :
  filter (fun r => notna (r_id r)) (map row_of_item its) = map row_of_item its /\
  filter (fun r => isna (r_id r)) (map row_of_item its) = [].
Proof.
  induction its as [|x tl [IH1 IH2]]; cbn; [split; reflexivity|].
  now rewrite IH1, IH2.
Qed.

Lemma reimport_fold (ts : string) (suf pre : list Item) (log : list Txn) :
  increasing (map it_id suf) ->
  Forall (fun x => Forall (fun p => it_id p <> it_id x) pre) suf ->
  fold_left (merge_id_row ts) (map row_of_item suf) (mkDB (pre ++ suf) log) =
  mkDB (pre ++ map (doubled ts) suf) (log ++ map (reimport_entry ts) suf).
Proof.
  revert pre log. induction suf as [|x tl IH]; intros pre log Hinc Hpre; cbn.
  - now rewrite !app_nil_r.
  - destruct Hinc as [Hx Htl]. inversion Hpre as [|? ? Hpx Hptl]; subst.
    assert (Hl : lookup_id (it_id x) (items (mkDB (pre ++ x :: tl) log)) = Some x).
    { cbn [items]. rewrite lookup_id_app_other by exact Hpx.
      unfold lookup_id. cbn. now rewrite Z.eqb_refl. }
    rewrite (merge_id_row_found ts _ (row_of_item x) (it_id x) x eq_refl Hl).
    cbn [items transactions row_of_item r_tyre_size r_company r_series r_qty].
    assert (Hu : update_where_id (it_id x)
                   (fun y => mkItem (it_id y) (it_tyre_size x) (it_company x)
                                    (it_series x) (it_qty x + it_qty x) ts)
                   (pre ++ x :: tl) = ((pre ++ [doubled ts x]) ++ tl)%list).
    { unfold update_where_id. rewrite map_app. cbn. rewrite Z.eqb_refl.
      fold (update_where_id (it_id x)
              (fun y => mkItem (it_id y) (it_tyre_size x) (it_company x)
                               (it_series x) (it_qty x + it_qty x) ts) pre).
      fold (update_where_id (it_id x)
              (fun y => mkItem (it_id y) (it_tyre_size x) (it_company x)
                               (it_series x) (it_qty x + it_qty x) ts) tl).
      rewrite update_where_id_other by exact Hpx.
      rewrite update_where_id_other.
      - rewrite <- app_assoc. cbn. unfold doubled.
        replace (2 * it_qty x) with (it_qty x + it_qty x) by lia. reflexivity.
      - rewrite Forall_map in Hx. eapply Forall_impl; [|exact Hx].
        cbn. intros; lia. }
    rewrite Hu, IH.
    + rewrite <- !app_assoc. reflexivity.
    + exact Htl.
    + rewrite Forall_map in Hx. apply Forall_forall. intros y Hy.
      apply Forall_app. split.
      * rewrite Forall_forall in Hptl. now apply Hptl.
      * rewrite Forall_forall in Hx. specialize (Hx y Hy). cbn in Hx.
        constructor; [|constructor]. cbn. lia.
Qed.

Lemma merge_of_items_frame (ts : string) (db : DB) :
  wf db ->
  upsert_items_from_df no_fault ts (get_items_df db) db =
  (Ok tt,
   mkDB (map (doubled ts) (items db))
        (transactions db ++ map (reimport_entry ts) (items db))).
Proof.
  intros Hw. unfold get_items_df.
  rewrite (increasing_order_by_id _ Hw), upsert_no_fault. unfold merged.
  destruct (filter_rows_with_id (items db)) as [-> ->]. cbn [fold_left].
  destruct db as [its log]. cbn [items transactions] in *.
  apply f_equal.
  apply (reimport_fold ts its [] log Hw).
  apply Forall_forall. intros; constructor.
Qed.

(** C8, as the code has it.  The sheet [backup_db_to_excel] writes has the
    column names of the table as headers.  [read_excel_to_df] rejects every
    sheet with these headers, whatever its cells hold: "tyre size" and
    "quantity" are not among them.  So the import of the exported file ends
    with the ValueError of the header check and leaves the store as it is:
    no quantity is doubled.  It is the merge itself that doubles: given the
    rows of the table with their ids (the frame of [get_items_df]),
    [upsert_items_from_df] doubles the quantity of every record and leaves
    size, company and series of every record as they were. *)
Theorem export_is_rejected_on_reimport (py_int_of_str : string -> option Z)
    (py_str_of_num : Z -> string) (fault : nat -> bool) (ts : string) (db : DB) :
  wf db ->
  columns (backup_db_to_excel db) =
    ["id"; "tyre_size"; "company"; "series"; "qty"; "last_updated"] /\
  (forall sheet : Table,
     columns sheet = columns (backup_db_to_excel db) ->
     read_excel_to_df py_int_of_str py_str_of_num sheet =
       Err (ValueError_columns ["id"; "tyre size"; "quantity"] (columns sheet)) /\
     import_merge py_int_of_str py_str_of_num fault ts sheet db =
       (Err (ValueError_columns ["id"; "tyre size"; "quantity"] (columns sheet)),
        db)) /\
  upsert_items_from_df no_fault ts (get_items_df db) db =
  (Ok tt,
   mkDB (map (fun it => mkItem (it_id it) (it_tyre_size it) (it_company it)
                               (it_series it) (2 * it_qty it) ts)
             (items db))
        (transactions db ++
         map (fun it => mkTxn (it_id it) (it_tyre_size it) (it_company it)
                              (it_series it) (it_qty it)
                              "import_upsert" ts (Some "import from excel"))
             (items db))).
Proof.
  intros Hw. split; [reflexivity|]. split.
  - intros [cols rows] Hc. cbn [columns] in *.
    assert (E : read_excel_to_df py_int_of_str py_str_of_num (mkTable cols rows) =
                Err (ValueError_columns ["id"; "tyre size"; "quantity"] cols))
      by (rewrite Hc; reflexivity).
    split; [exact E|]. unfold import_merge. now rewrite E.
  - now apply merge_of_items_frame.
Qed.

Lemma export_is_rejected_on_reimport_witness :
  wf sample_db /\
  import_merge (fun _ => None) (fun _ => "0") no_fault "t1"
    (backup_db_to_excel sample_db) sample_db =
  (Err (ValueError_columns ["id"; "tyre size"; "quantity"]
          (columns (backup_db_to_excel sample_db))), sample_db).
Proof.
  split.
  - unfold wf; cbn; repeat constructor.
  - destruct (export_is_rejected_on_reimport (fun _ => None) (fun _ => "0")
                no_fault "t1" sample_db) as (_ & H & _).
    + unfold wf; cbn; repeat constructor.
    + destruct (H (backup_db_to_excel sample_db) eq_refl) as [_ E]. exact E.
Defined.

(** C8 as the specification has it does not hold: after the export of a
    store with 7 units under id 1 and the import of the exported sheet,
    record 1 holds 7 units, not 14. *)
Lemma export_reimport_does_not_double :
  qty_of sample_db 1 = 7 /\
  qty_of (snd (import_merge (fun _ => None) (fun _ => "0") no_fault "t1"
                 (backup_db_to_excel sample_db) sample_db)) 1 = 7 /\
  fst (import_merge (fun _ => None) (fun _ => "0") no_fault "t1"
         (backup_db_to_excel sample_db) sample_db) =
  Err (ValueError_columns ["id"; "tyre size"; "quantity"]
         ["id"; "tyre_size"; "company"; "series"; "qty"; "last_updated"]).
Proof. repeat split. Qed.

(* ------------------------------------------------------------------ *)
(** ** Rows that meet a record of the same import *)

(** C9, as the code has it.  Two rows without id that have the same size,
    company and series, the size being present, imported into the empty
    store give one record, under id 1, whose quantity is the sum of the
    two, and two entries: "import_new" with the first quantity, then
    "import_merge_signature" with the second. *)
Theorem second_row_merges_into_first (ts : string) (s : string)
    (company series : option string) (q1 q2 : Z) :
  upsert_items_from_df no_fault ts
    (Frame [mkRow None (Some s) company series q1;
            mkRow None (Some s) company series q2]) empty_db =
  (Ok tt,
   mkDB [mkItem 1 (Some s) company series (q1 + q2) ts]
        [mkTxn 1 (Some s) company series q1 "import_new" ts
               (Some "new row from excel");
         mkTxn 1 (Some s) company series q2 "import_merge_signature" ts
               (Some "imported by signature")]).
Proof.
  rewrite upsert_no_fault. unfold merged. cbn [filter r_id notna isna negb fold_left].
  rewrite (merge_no_id_row_new ts empty_db) by reflexivity.
  cbn [empty_db items transactions new_rowid insert_by_id app
       r_tyre_size r_company r_series r_qty].
  rewrite (merge_no_id_row_found ts _ _ (mkItem 1 (Some s) company series q1 ts)).
  - cbn. reflexivity.
  - cbn [items r_tyre_size r_company r_series]. unfold lookup_signature. cbn [find].
    assert (E : signature_where (Some s) company series
                  (mkItem 1 (Some s) company series q1 ts) = true)
      by (apply signature_where_present; cbn; auto).
    now rewrite E.
Qed.

(** C9, as the specification states it, fails when the size the two rows
    share is absent: the second row does not meet the record the first row
    made; the store ends with two records and both entries say
    "import_new". *)
Lemma rows_without_size_stay_apart :
  upsert_items_from_df no_fault "t1"
    (Frame [mkRow None None (Some "Acme") None 5;
            mkRow None None (Some "Acme") None 7]) empty_db =
  (Ok tt,
   mkDB [mkItem 1 None (Some "Acme") None 5 "t1";
         mkItem 2 None (Some "Acme") None 7 "t1"]
        [mkTxn 1 None (Some "Acme") None 5 "import_new" "t1"
               (Some "new row from excel");
         mkTxn 2 None (Some "Acme") None 7 "import_new" "t1"
               (Some "new row from excel")]).
Proof. reflexivity. Qed.

(* ------------------------------------------------------------------ *)
(** ** Rows without size *)

Lemma canonical_rows_nth (py_int_of_str : string -> option Z)
    (py_str_of_num : Z -> string) (cols : list string)
    (cols_map : list (string * string)) (rows : list (list cell)) :
  Forall (fun row =>
            cell_notna (row_get cols cols_map row "quantity") = true ->
            py_int py_int_of_str (row_get cols cols_map row "quantity") <> None)
         rows ->
  exists rs,
    canonical_rows py_int_of_str py_str_of_num cols cols_map rows = Ok rs /\
    List.length rs = List.length rows /\
    forall k row, nth_error rows k = Some row ->
      exists r, nth_error rs k = Some r /\
                canonical_row py_int_of_str py_str_of_num cols cols_map row = Ok r.
Proof.
  induction 1 as [|row tl Hrow _ (rs & E & L & N)]; cbn.
  - exists []. repeat split. intros [|k] row; discriminate.
  - assert (R : exists r,
               canonical_row py_int_of_str py_str_of_num cols cols_map row = Ok r).
    { unfold canonical_row.
      destruct (cell_notna (row_get cols cols_map row "quantity")) eqn:Q;
        [|eexists; reflexivity].
      destruct (py_int py_int_of_str (row_get cols cols_map row "quantity")) eqn:P;
        [eexists; reflexivity|]. now destruct (Hrow eq_refl). }
    destruct R as [r R]. rewrite R, E. exists (r :: rs).
    split; [reflexivity|]. split; [cbn; now rewrite L|].
    intros [|k] row' Hk; cbn in *.
    + injection Hk as <-. now exists r.
    + now apply N.
Qed.

Lemma canonical_row_blank_size (py_int_of_str : string -> option Z)
    (py_str_of_num : Z -> string) (cols : list string)
    (cols_map : list (string * string)) (row : list cell) (r : CanonicalRow) :
  row_get cols cols_map row "tyre size" = NaN ->
  canonical_row py_int_of_str py_str_of_num cols cols_map row = Ok r ->
  r_tyre_size r = None.
Proof.
  unfold canonical_row. intros ->. cbn [cell_notna].
  destruct (cell_notna (row_get cols cols_map row "quantity")).
  - destruct (py_int py_int_of_str (row_get cols cols_map row "quantity"));
      [|discriminate]. now intros [= <-].
  - now intros [= <-].
Qed.



(* ------------------------------------------------------------------ *)
(** ** Row writes: what every operation is made of *)

Lemma lookup_id_of_In (its : list Item) (x : Item) :
  In x its -> lookup_id (it_id x) its <> None.
Proof.
  unfold lookup_id. intros Hin E.
  pose proof (find_none _ _ E x Hin) as H. cbn in H.
  rewrite Z.eqb_refl in H. discriminate.
Qed.

Lemma row_write_wf (w w' : DB) : row_write w w' -> wf w -> wf w'.
Proof.
  intros [(i & f & e & _ & Hf & ->) | (x & e & Hl & ->)] Hw.
  - now apply wf_update.
  - now apply wf_insert.
Qed.

Lemma keeps_refl (db : DB) : keeps db db.
Proof. split; [exists []; now rewrite app_nil_r | auto]. Qed.

Lemma keeps_trans (a b c : DB) : keeps a b -> keeps b c -> keeps a c.
Proof.
  intros [[l1 H1] K1] [[l2 H2] K2]. split.
  - exists (l1 ++ l2)%list. now rewrite H2, H1, app_assoc.
  - auto.
Qed.

Lemma row_write_keeps (w w' : DB) : row_write w w' -> keeps w w'.
Proof.
  intros [(i & f & e & _ & Hf & ->) | (x & e & Hl & ->)]; split; cbn [items transactions].
  - now exists [e].
  - intros j Hj. rewrite lookup_id_update by exact Hf.
    destruct (lookup_id j (items w)); [discriminate | contradiction].
  - now exists [e].
  - intros j Hj. rewrite lookup_id_insert by exact Hl.
    destruct (it_id x =? j); [discriminate | exact Hj].
Qed.

Lemma row_writes_wf (w w' : DB) : row_writes w w' -> wf w -> wf w'.
Proof.
  induction 1 as [|w w1 w2 H1 _ IH]; intros Hw; [exact Hw|].
  apply IH. now apply (row_write_wf w).
Qed.

Lemma row_writes_keeps (w w' : DB) : row_writes w w' -> keeps w w'.
Proof.
  induction 1 as [|w w1 w2 H1 _ IH]; [apply keeps_refl|].
  eapply keeps_trans; [apply row_write_keeps; exact H1 | exact IH].
Qed.

Lemma row_writes_one (w w' : DB) : row_write w w' -> row_writes w w'.
Proof. intros H. econstructor; [exact H | constructor]. Qed.

Lemma row_writes_app (a b c : DB) : row_writes a b -> row_writes b c -> row_writes a c.
Proof.
  induction 1 as [|w w1 w2 H1 _ IH]; intros H; [exact H|].
  econstructor; [exact H1 | now apply IH].
Qed.

Lemma row_write_update (w : DB) (i : Z) (it : Item) (f : Item -> Item) (e : Txn) :
  lookup_id i (items w) = Some it ->
  (forall x, it_id (f x) = it_id x) ->
  row_write w (mkDB (update_where_id i f (items w)) (transactions w ++ [e])).
Proof.
  intros Hl Hf. left. exists i, f, e. repeat split; [congruence | exact Hf].
Qed.

Lemma row_write_update_In (w : DB) (x : Item) (f : Item -> Item) (e : Txn) :
  In x (items w) ->
  (forall y, it_id (f y) = it_id y) ->
  row_write w (mkDB (update_where_id (it_id x) f (items w)) (transactions w ++ [e])).
Proof.
  intros Hin Hf. left. exists (it_id x), f, e.
  repeat split; [now apply lookup_id_of_In | exact Hf].
Qed.

Lemma row_write_insert (w : DB) (x : Item) (e : Txn) :
  lookup_id (it_id x) (items w) = None ->
  row_write w (mkDB (insert_by_id x (items w)) (transactions w ++ [e])).
Proof. intros Hl. right. now exists x, e. Qed.

Lemma merge_id_row_write (ts : string) (w : DB) (r : CanonicalRow) (i : Z) :
  r_id r = Some i -> row_write w (merge_id_row ts w r).
Proof.
  intros Hi. destruct (lookup_id i (items w)) as [it|] eqn:Hl.
  - rewrite (merge_id_row_found ts w r i it Hi Hl).
    now apply (row_write_update w i it).
  - rewrite (merge_id_row_new ts w r i Hi Hl). now apply row_write_insert.
Qed.

Lemma merge_no_id_row_write (ts : string) (w : DB) (r : CanonicalRow) :
  row_write w (merge_no_id_row ts w r).
Proof.
  destruct (lookup_signature (r_tyre_size r) (r_company r) (r_series r) (items w))
    as [it|] eqn:Hl.
  - rewrite (merge_no_id_row_found ts w r it Hl).
    apply (row_write_update_In w it); [|reflexivity].
    now apply lookup_signature_In in Hl.
  - rewrite (merge_no_id_row_new ts w r Hl).
    apply row_write_insert. apply new_rowid_fresh.
Qed.

Lemma fold_row_writes (step : DB -> CanonicalRow -> DB) (rows : list CanonicalRow) :
  Forall (fun r => forall w, row_write w (step w r)) rows ->
  forall w, row_writes w (fold_left step rows w).
Proof.
  induction 1 as [|r tl Hr _ IH]; intros w; cbn; [constructor|].
  econstructor; [apply Hr | apply IH].
Qed.

Lemma merged_writes (ts : string) (rows : list CanonicalRow) (db : DB) :
  row_writes db (merged ts rows db).
Proof.
  unfold merged.
  apply (row_writes_app _
           (fold_left (merge_id_row ts) (filter (fun r => notna (r_id r)) rows) db)).
  - apply fold_row_writes. apply Forall_forall. intros r Hr w.
    apply filter_In in Hr as [_ Hr]. destruct (r_id r) as [i|] eqn:Hi;
      [|discriminate Hr]. now apply (merge_id_row_write ts w r i).
  - apply fold_row_writes. apply Forall_forall. intros r _ w.
    apply merge_no_id_row_write.
Qed.

Lemma upsert_writes (fault : nat -> bool) (ts : string) (df : DataFrame) (db : DB) :
  atomic_writes db (upsert_items_from_df fault ts df db).
Proof.
  destruct df as [|rows]; [reflexivity|].
  destruct (upsert_outcome fault ts rows db) as [E | (n & _ & E)]; rewrite E.
  - apply merged_writes.
  - reflexivity.
Qed.

Lemma add_stock_writes (fault : nat -> bool) (ts : string) (item_id : option Z)
    (tyre_size company series : option string) (qty : Z) (note : option string)
    (db : DB) :
  atomic_writes db (add_stock fault ts item_id tyre_size company series qty note db).
Proof.
  unfold atomic_writes, add_stock, with_conn, add_stock_body.
  destruct item_id as [i|]; sql_unfold.
  - destruct (fault 0%nat); cbn; [reflexivity|].
    destruct (lookup_id i (items db)) as [it|] eqn:Hl; cbn.
    + fault_cases fault. apply row_writes_one. now apply (row_write_update db i it).
    + destruct (fault 1%nat); cbn; [reflexivity|]. rewrite Hl. cbn.
      fault_cases fault. apply row_writes_one. now apply row_write_insert.
  - fault_cases fault. apply row_writes_one.
    apply row_write_insert. apply new_rowid_fresh.
Qed.

Lemma remove_stock_by_id_writes (fault : nat -> bool) (ts : string)
    (item_id qty : Z) (reason : string) (note : option string) (db : DB) :
  atomic_writes db (remove_stock_by_id fault ts item_id qty reason note db).
Proof.
  unfold atomic_writes, remove_stock_by_id, with_conn, remove_stock_by_id_body.
  sql_unfold. destruct (fault 0%nat); cbn; [reflexivity|].
  destruct (lookup_id item_id (items db)) as [it|] eqn:Hl; cbn; [|reflexivity].
  destruct (qty >? it_qty it); cbn; [reflexivity|].
  fault_cases fault. apply row_writes_one.
  now apply (row_write_update db item_id it).
Qed.

Lemma remove_stock_by_signature_writes (fault : nat -> bool) (ts : string)
    (tyre_size company series : option string) (qty : Z) (reason : string)
    (note : option string) (db : DB) :
  atomic_writes db
    (remove_stock_by_signature fault ts tyre_size company series qty reason note db).
Proof.
  unfold atomic_writes, remove_stock_by_signature, with_conn,
    remove_stock_by_signature_body.
  sql_unfold. destruct (fault 0%nat); cbn; [reflexivity|].
  destruct (lookup_signature tyre_size company series (items db)) as [it|] eqn:Hl;
    cbn; [|reflexivity].
  destruct (qty >? it_qty it); cbn; [reflexivity|].
  fault_cases fault. apply row_writes_one.
  apply (row_write_update_In db it); [|reflexivity].
  now apply lookup_signature_In in Hl.
Qed.

(** X1.  The merge import, [add_stock] and the two removals never delete: in
    the store they leave, whatever call on the connection fails, the old log
    is the beginning of the new log and every id that was in the table is
    still in the table. *)
Theorem operations_keep_records_and_log (fault : nat -> bool) (ts : string) (db : DB) :
  (forall df, keeps db (snd (upsert_items_from_df fault ts df db))) /\
  (forall item_id tyre_size company series qty note,
      keeps db (snd (add_stock fault ts item_id tyre_size company series qty note db))) /\
  (forall item_id qty reason note,
      keeps db (snd (remove_stock_by_id fault ts item_id qty reason note db))) /\
  (forall tyre_size company series qty reason note,
      keeps db (snd (remove_stock_by_signature fault ts tyre_size company series
                       qty reason note db))).
Proof.
  assert (K : forall (A : Type) (out : result A * DB),
             atomic_writes db out -> keeps db (snd out)).
  { intros A [[a|e] db']; unfold atomic_writes; cbn.
    - apply row_writes_keeps.
    - intros ->. apply keeps_refl. }
  split; [|split; [|split]]; intros; apply K.
  - apply upsert_writes.
  - apply add_stock_writes.
  - apply remove_stock_by_id_writes.
  - apply remove_stock_by_signature_writes.
Qed.

(* ------------------------------------------------------------------ *)
(** ** The destructive import *)

Lemma replace_row_cases (fault : nat -> bool) (ts : string) (r : CanonicalRow)
    (c : Conn) :
  let i := match r_id r with Some i => i | None => new_rowid (items (work c)) end in
  (lookup_id i (items (work c)) = None /\
   exists c',
     replace_row fault ts r c = (Ok tt, c') /\ disk c' = disk c /\
     work c' = mkDB (insert_by_id (replace_record ts i r) (items (work c)))
                    (transactions (work c) ++ [replace_entry ts i r])) \/
  (exists e c',
     replace_row fault ts r c = (Err e, c') /\ disk c' = disk c /\
     ((exists n, e = StoreFault n /\ fault n = true) \/
      (e = IntegrityError i /\ r_id r = Some i /\
       lookup_id i (items (work c)) <> None))).
Proof.
  unfold replace_row. destruct (r_id r) as [i|] eqn:Hi; sql_unfold.
  - destruct (fault (calls c)) eqn:F0.
    { right. do 2 eexists. split; [reflexivity|]. split; [reflexivity|].
      left. eauto. }
    destruct (lookup_id i (items (work c))) as [it|] eqn:Hl; cbn.
    { right. do 2 eexists. split; [reflexivity|]. split; [reflexivity|].
      right. repeat split. congruence. }
    destruct (fault (S (calls c))) eqn:F1.
    { right. do 2 eexists. split; [reflexivity|]. split; [reflexivity|].
      left. eauto. }
    left. split; [reflexivity|]. eexists. repeat split.
  - destruct (fault (calls c)) eqn:F0; cbn.
    { right. do 2 eexists. split; [reflexivity|]. split; [reflexivity|].
      left. eauto. }
    destruct (fault (S (calls c))) eqn:F1.
    { right. do 2 eexists. split; [reflexivity|]. split; [reflexivity|].
      left. eauto. }
    left. split; [apply new_rowid_fresh|]. eexists. repeat split.
Qed.

Lemma replace_rows_stop (fault : nat -> bool) (ts : string)
    (rows : list CanonicalRow) (c c' : Conn) (e : exn) :
  for_each rows (replace_row fault ts) c = (Err e, c') ->
  disk c' = disk c /\
  ((exists n, e = StoreFault n /\ fault n = true) \/ exists j, e = IntegrityError j).
Proof.
  revert c. induction rows as [|r tl IH]; intros c; cbn; [discriminate|].
  unfold bind.
  destruct (replace_row_cases fault ts r c)
    as [(_ & c1 & E1 & D1 & _) | (e1 & c1 & E1 & D1 & K)]; rewrite E1.
  - intros H. destruct (IH c1 H) as [D K]. split; [congruence | exact K].
  - intros [= <- <-]. split; [exact D1|].
    destruct K as [K | (-> & _ & _)]; [now left | right; eauto].
Qed.

Lemma replace_rows_done (fault : nat -> bool) (ts : string)
    (rows : list CanonicalRow) (c c' : Conn) :
  for_each rows (replace_row fault ts) c = (Ok tt, c') ->
  disk c' = disk c /\
  exists ids : list Z,
    Forall2 (fun i r => forall j, r_id r = Some j -> i = j) ids rows /\
    NoDup ids /\
    Forall (fun i => lookup_id i (items (work c)) = None) ids /\
    transactions (work c') =
      (transactions (work c) ++
       map (fun p => replace_entry ts (fst p) (snd p)) (combine ids rows))%list /\
    (forall p, In p (combine ids rows) ->
       lookup_id (fst p) (items (work c')) = Some (replace_record ts (fst p) (snd p))) /\
    (forall j, lookup_id j (items (work c)) <> None ->
       lookup_id j (items (work c')) = lookup_id j (items (work c))) /\
    List.length (items (work c')) = (List.length rows + List.length (items (work c)))%nat /\
    (wf (work c) -> wf (work c')) /\
    audited (List.length rows) (work c) (work c').
Proof.
  revert c. induction rows as [|r tl IH]; intros c; cbn.
  - intros [= <-]. split; [reflexivity|]. exists [].
    repeat split; try constructor; cbn; try tauto. now rewrite app_nil_r.
  - unfold bind.
    destruct (replace_row_cases fault ts r c)
      as [(Hnone & c1 & E1 & D1 & W1) | (e1 & c1 & E1 & _)]; rewrite E1;
      [|discriminate].
    set (i := match r_id r with
              | Some i => i
              | None => new_rowid (items (work c))
              end) in *.
    intros H.
    destruct (IH c1 H) as (D & ids & Hids & Hnd & Hfresh & Hlog & Hnew & Hold & Hlen & Hwf & Ha).
    assert (L1 : forall j, lookup_id j (items (work c1)) =
                   if i =? j then Some (replace_record ts i r)
                   else lookup_id j (items (work c))).
    { intros j. rewrite W1. cbn [items].
      now rewrite lookup_id_insert by exact Hnone. }
    split; [congruence|]. exists (i :: ids). repeat split.
    + constructor; [|exact Hids]. intros j Hj. unfold i. now rewrite Hj.
    + constructor; [|exact Hnd]. intros Hin.
      rewrite Forall_forall in Hfresh. specialize (Hfresh i Hin).
      rewrite L1, Z.eqb_refl in Hfresh. discriminate.
    + constructor; [exact Hnone|].
      eapply Forall_impl; [|exact Hfresh]. cbn. intros j Hj.
      rewrite L1 in Hj. now destruct (i =? j).
    + rewrite Hlog, W1. cbn [transactions combine map fst snd].
      now rewrite <- app_assoc.
    + intros p [<-|Hp]; cbn [fst snd].
      * rewrite Hold; rewrite L1, Z.eqb_refl; [reflexivity | discriminate].
      * now apply Hnew.
    + intros j Hj. rewrite Hold; rewrite L1.
      * destruct (i =? j) eqn:E; [|reflexivity].
        apply Z.eqb_eq in E. subst j. contradiction.
      * now destruct (i =? j).
    + rewrite Hlen, W1. cbn [items]. rewrite insert_by_id_length. lia.
    + intros Hw. apply Hwf. rewrite W1. now apply wf_insert.
    + econstructor; [|exact Ha]. rewrite W1. now apply audited_insert.
Qed.

Lemma replace_unfold (fault : nat -> bool) (ts : string) (df : DataFrame) (db : DB) :
  replace_db_with_df fault ts df db =
  if fault 0%nat then (Err (StoreFault 0), db)
  else if fault 1%nat then (Err (StoreFault 1), db)
  else
    match for_each (frame_rows df) (replace_row fault ts) (mkConn db empty_db 2%nat) with
    | (Ok _, c') =>
        if fault (calls c') then (Err (StoreFault (calls c')), disk c')
        else (Ok tt, work c')
    | (Err e, c') => (Err e, disk c')
    end.
Proof.
  unfold replace_db_with_df, with_conn, replace_body, bind, execute, commit,
    delete_transactions, delete_items. cbn.
  destruct (fault 0%nat); [reflexivity|]. cbn.
  destruct (fault 1%nat); [reflexivity|]. cbn. fold empty_db.
  destruct (for_each (frame_rows df) (replace_row fault ts) (mkConn db empty_db 2%nat))
    as [[[]|e] c']; [|reflexivity].
  destruct (fault (calls c')); reflexivity.
Qed.

Lemma replace_outcome (fault : nat -> bool) (ts : string) (df : DataFrame) (db : DB) :
  (exists e, replace_db_with_df fault ts df db = (Err e, db) /\
     ((exists n, e = StoreFault n /\ fault n = true) \/ exists j, e = IntegrityError j)) \/
  (exists c',
     for_each (frame_rows df) (replace_row fault ts) (mkConn db empty_db 2%nat)
       = (Ok tt, c') /\
     replace_db_with_df fault ts df db = (Ok tt, work c')).
Proof.
  rewrite replace_unfold.
  destruct (fault 0%nat) eqn:F0; [left; eexists; split; [reflexivity | left; eauto]|].
  destruct (fault 1%nat) eqn:F1; [left; eexists; split; [reflexivity | left; eauto]|].
  destruct (for_each (frame_rows df) (replace_row fault ts) (mkConn db empty_db 2%nat))
    as [[[]|e] c'] eqn:E.
  - destruct (fault (calls c')) eqn:F.
    + left. eexists. split; [|left; eauto].
      apply replace_rows_done in E as [D _]. cbn in D. now rewrite D.
    + right. exists c'. split; reflexivity.
  - left. exists e. apply replace_rows_stop in E as [D K]. cbn in D.
    split; [now rewrite D | exact K].
Qed.

(** X2.  The destructive import is all or nothing: when it ends with an
    exception, whichever call on the connection raised it, the store still
    holds the records and the log it held before, the two DELETEs included
    in what is undone. *)
Theorem replace_failure_keeps_store (fault : nat -> bool) (ts : string)
    (df : DataFrame) (db db' : DB) (e : exn) :
  replace_db_with_df fault ts df db = (Err e, db') -> db' = db.
Proof.
  intros H.
  destruct (replace_outcome fault ts df db) as [(e' & E & _) | (c' & _ & E)];
    rewrite E in H; congruence.
Qed.

Lemma replace_failure_keeps_store_witness :
  replace_db_with_df (fun n => Nat.eqb n 4) "t1"
    (Frame [mkRow (Some 5) (Some "155 70 R13") None None 2;
            mkRow None (Some "185 65 R14") None None 1]) sample_db
  = (Err (StoreFault 4), sample_db).
Proof.
  assert (E : exists db', replace_db_with_df (fun n => Nat.eqb n 4) "t1"
    (Frame [mkRow (Some 5) (Some "155 70 R13") None None 2;
            mkRow None (Some "185 65 R14") None None 1]) sample_db
    = (Err (StoreFault 4), db')) by (eexists; reflexivity).
  destruct E as [db' E]. rewrite E.
  now rewrite (replace_failure_keeps_store _ _ _ _ _ _ E).
Defined.

(** X3.  When the destructive import succeeds, nothing of the old store is
    left: the table holds exactly one record per row of the frame, under the
    row's id when it has one and under a store-assigned id otherwise, all
    ids different, with the row's fields and quantity; the log holds exactly
    one "replace_import" entry per row, in the order of the rows, with the
    row's quantity as delta. *)
Theorem replace_success_is_the_frame (fault : nat -> bool) (ts : string)
    (df : DataFrame) (db db' : DB) :
  replace_db_with_df fault ts df db = (Ok tt, db') ->
  exists ids : list Z,
    Forall2 (fun i r => forall j, r_id r = Some j -> i = j) ids (frame_rows df) /\
    NoDup ids /\
    transactions db' =
      map (fun p => replace_entry ts (fst p) (snd p)) (combine ids (frame_rows df)) /\
    (forall p, In p (combine ids (frame_rows df)) ->
       lookup_id (fst p) (items db') = Some (replace_record ts (fst p) (snd p))) /\
    List.length (items db') = List.length (frame_rows df) /\
    wf db'.
Proof.
  intros H.
  destruct (replace_outcome fault ts df db) as [(e' & E & _) | (c' & Hrun & E)];
    rewrite E in H; [discriminate|].
  injection H as <-.
  destruct (replace_rows_done fault ts _ _ _ Hrun)
    as (_ & ids & Hids & Hnd & _ & Hlog & Hnew & _ & Hlen & Hwf & _).
  exists ids. cbn [work items transactions empty_db] in *.
  repeat split; try assumption.
  - rewrite Hlen. cbn. lia.
  - apply Hwf. exact I.
Qed.

Lemma replace_success_is_the_frame_witness :
  exists ids : list Z,
    NoDup ids /\
    List.length
      (items (snd (replace_db_with_df no_fault "t1"
                     (Frame [mkRow (Some 5) (Some "155 70 R13") None None 2;
                             mkRow None (Some "185 65 R14") None None 1])
                     sample_db))) = 2%nat.
Proof.
  destruct (replace_success_is_the_frame no_fault "t1"
              (Frame [mkRow (Some 5) (Some "155 70 R13") None None 2;
                      mkRow None (Some "185 65 R14") None None 1])
              sample_db
              (snd (replace_db_with_df no_fault "t1"
                      (Frame [mkRow (Some 5) (Some "155 70 R13") None None 2;
                              mkRow None (Some "185 65 R14") None None 1])
                      sample_db)))
    as (ids & _ & Hnd & _ & _ & Hlen & _).
  - reflexivity.
  - exists ids. split; [exact Hnd | exact Hlen].
Defined.

(** X4.  A frame without rows.  The destructive import of it, with or
    without columns, succeeds and leaves both tables empty.  The merge import
    of a frame without columns ([pd.DataFrame([])]) raises KeyError 'id'; of a
    frame with columns and no rows it succeeds; either way the store is as
    it was. *)
Theorem frame_without_rows (ts : string) (db : DB) :
  replace_db_with_df no_fault ts EmptyFrame db = (Ok tt, empty_db) /\
  replace_db_with_df no_fault ts (Frame []) db = (Ok tt, empty_db) /\
  upsert_items_from_df no_fault ts EmptyFrame db = (Err (KeyError "id"), db) /\
  upsert_items_from_df no_fault ts (Frame []) db = (Ok tt, db).
Proof. repeat split. Qed.

Lemma NoDup_twice {A : Type} (a : A) (l1 l2 l3 : list A) :
  ~ NoDup (l1 ++ a :: l2 ++ a :: l3).
Proof.
  intros H. apply NoDup_remove_2 in H. apply H.
  apply in_or_app. right. apply in_or_app. right. now left.
Qed.

(** X5.  A frame in which two rows carry the same id cannot replace the
    store: without any store failure the destructive import ends with an
    IntegrityError and the store is as it was before. *)
Theorem replace_with_repeated_id_fails (ts : string) (db : DB)
    (pre mid post : list CanonicalRow) (r1 r2 : CanonicalRow) (i : Z) :
  r_id r1 = Some i ->
  r_id r2 = Some i ->
  exists j,
    replace_db_with_df no_fault ts (Frame (pre ++ r1 :: mid ++ r2 :: post)) db =
    (Err (IntegrityError j), db).
Proof.
  intros H1 H2.
  destruct (replace_outcome no_fault ts (Frame (pre ++ r1 :: mid ++ r2 :: post)) db)
    as [(e & E & [(n & _ & F) | (j & ->)]) | (c' & Hrun & _)].
  - discriminate F.
  - now exists j.
  - exfalso. cbn [frame_rows] in Hrun.
    destruct (replace_rows_done no_fault ts _ _ _ Hrun) as (_ & ids & Hids & Hnd & _).
    apply Forall2_app_inv_r in Hids as (a & b & _ & Hb & ->).
    inversion Hb as [|i1 ? b' ? Hi1 Hb']; subst.
    apply Forall2_app_inv_r in Hb' as (m & b2 & _ & Hb2 & ->).
    inversion Hb2 as [|i2 ? b3 ? Hi2 _]; subst.
    rewrite (Hi1 i H1), (Hi2 i H2) in Hnd.
    exact (NoDup_twice _ _ _ _ Hnd).
Qed.

Lemma replace_with_repeated_id_fails_witness :
  exists j,
    replace_db_with_df no_fault "t1"
      (Frame ([] ++ mkRow (Some 3) (Some "155 70 R13") None None 2
                 :: [mkRow None (Some "185 65 R14") None None 1]
                 ++ mkRow (Some 3) (Some "195 55 R16") None None 4 :: []))
      sample_db = (Err (IntegrityError j), sample_db).
Proof.
  apply (replace_with_repeated_id_fails "t1" sample_db []
           [mkRow None (Some "185 65 R14") None None 1] []
           (mkRow (Some 3) (Some "155 70 R13") None None 2)
           (mkRow (Some 3) (Some "195 55 R16") None None 4) 3);
    reflexivity.
Defined.

Lemma insert_by_id_last (x : Item) (its : list Item) :
  Forall (fun y => it_id y < it_id x) its -> insert_by_id x its = (its ++ [x])%list.
Proof.
  induction 1 as [|y tl Hy _ IH]; cbn; [reflexivity|].
  assert (E : (it_id x <? it_id y) = false) by (apply Z.ltb_ge; lia).
  now rewrite E, IH.
Qed.

Lemma increasing_app_lt (l1 l2 : list Z) (x : Z) :
  increasing (l1 ++ x :: l2) -> Forall (fun y => y < x) l1.
Proof.
  induction l1 as [|a l1 IH]; cbn; intros H; [constructor|].
  destruct H as [Ha Hl]. constructor; [|now apply IH].
  rewrite Forall_forall in Ha. apply Ha. apply in_or_app. right. now left.
Qed.

Lemma restore_rows (ts : string) (suf pre : list Item) (log : list Txn)
    (d : DB) (n : nat) :
  increasing (map it_id (pre ++ suf)) ->
  exists m,
    for_each (map row_of_item suf) (replace_row no_fault ts)
      (mkConn d (mkDB (map (restored ts) pre) log) n) =
    (Ok tt,
     mkConn d (mkDB (map (restored ts) (pre ++ suf))
                    (log ++ map (restore_entry ts) suf)) m).
Proof.
  revert pre log n. induction suf as [|x tl IH]; intros pre log n Hinc.
  - exists n. cbn. now rewrite !app_nil_r.
  - cbn [map for_each]. unfold bind at 1.
    assert (Hlt : Forall (fun y => it_id y < it_id x) (map (restored ts) pre)).
    { rewrite map_app in Hinc. cbn [map] in Hinc.
      apply increasing_app_lt in Hinc. rewrite Forall_map in Hinc.
      rewrite Forall_map. exact Hinc. }
    assert (Hnone : lookup_id (it_id x) (map (restored ts) pre) = None).
    { unfold lookup_id. destruct (find _ _) as [y|] eqn:E; [|reflexivity].
      apply find_some in E as [Hin Heq]. apply Z.eqb_eq in Heq.
      rewrite Forall_forall in Hlt. specialize (Hlt y Hin). lia. }
    assert (Hstep : replace_row no_fault ts (row_of_item x)
                      (mkConn d (mkDB (map (restored ts) pre) log) n) =
                    (Ok tt,
                     mkConn d (mkDB (map (restored ts) (pre ++ [x]))
                                    (log ++ [restore_entry ts x])) (S (S n)))).
    { unfold replace_row. sql_unfold. unfold lookup_id in Hnone. rewrite Hnone. cbn.
      rewrite insert_by_id_last by exact Hlt. now rewrite map_app. }
    rewrite Hstep.
    destruct (IH (pre ++ [x])%list (log ++ [restore_entry ts x])%list (S (S n)))
      as [m Hm].
    { now rewrite <- app_assoc. }
    exists m. rewrite Hm. now rewrite <- !app_assoc.
Qed.

(** X6.  Restore.  Run on any store, the destructive import of the frame
    that [get_items_df] gives for a store brings back every record of that
    store with its id, size, company, series and quantity, in the same
    order; only the timestamps are new, and the log holds one
    "replace_import" entry per record. *)
Theorem replace_restores_export (ts : string) (db current : DB) :
  wf db ->
  replace_db_with_df no_fault ts (get_items_df db) current =
  (Ok tt,
   mkDB (map (fun it => mkItem (it_id it) (it_tyre_size it) (it_company it)
                               (it_series it) (it_qty it) ts) (items db))
        (map (fun it => mkTxn (it_id it) (it_tyre_size it) (it_company it)
                              (it_series it) (it_qty it)
                              "replace_import" ts (Some "replace db from excel"))
             (items db))).
Proof.
  intros Hw. rewrite replace_unfold. cbn [no_fault].
  unfold get_items_df. rewrite (increasing_order_by_id _ Hw). cbn [frame_rows].
  destruct (restore_rows ts (items db) [] [] current 2%nat Hw) as [m Hm].
  cbn [map] in Hm. fold empty_db in Hm. now rewrite Hm.
Qed.

Lemma replace_restores_export_witness :
  wf sample_db /\
  items (snd (replace_db_with_df no_fault "t1" (get_items_df sample_db) empty_db)) =
  [mkItem 1 (Some "185 65 R14") (Some "Acme") None 7 "t1";
   mkItem 2 (Some "155 70 R13") None None 3 "t1"].
Proof.
  split.
  - unfold wf; cbn; repeat constructor.
  - rewrite (replace_restores_export "t1" sample_db empty_db).
    + reflexivity.
    + unfold wf; cbn; repeat constructor.
Defined.

(* ------------------------------------------------------------------ *)
(** ** The log explains the stock *)

Lemma logged_snoc (its its' : list Item) (log : list Txn) (e : Txn) (j : Z) :
  logged (mkDB its' (log ++ [e])) j =
  logged (mkDB its log) j + (if tx_item_id e =? j then tx_change e else 0).
Proof.
  unfold logged. cbn [transactions]. rewrite filter_app, map_app.
  induction (map tx_change (filter (fun e0 => tx_item_id e0 =? j) log)) as [|a l IH].
  - cbn. destruct (tx_item_id e =? j); cbn; lia.
  - cbn [app fold_right]. rewrite IH. lia.
Qed.

Lemma audited_step_ledger (db db' : DB) :
  audited_step db db' -> ledger db -> ledger db'.
Proof.
  intros (e & Hlog & Hq & Hother) L j.
  destruct db as [its log], db' as [its' log']. cbn [transactions] in Hlog. subst log'.
  rewrite (logged_snoc its its' log e j), <- (L j).
  destruct (tx_item_id e =? j) eqn:E.
  - apply Z.eqb_eq in E. subst j. exact Hq.
  - apply Z.eqb_neq in E. rewrite Hother by congruence. lia.
Qed.

Lemma audited_ledger (n : nat) (db db' : DB) :
  audited n db db' -> ledger db -> ledger db'.
Proof.
  induction 1 as [|n db db1 db2 Hs _ IH]; intros L; [exact L|].
  apply IH. now apply (audited_step_ledger db).
Qed.

Lemma ledger_empty : ledger empty_db.
Proof. intros j. reflexivity. Qed.

Lemma outcome_invariants {A : Type} (n : nat) (db : DB) (out : result A * DB) :
  atomic_audited n db out -> atomic_writes db out ->
  wf db /\ ledger db -> wf (snd out) /\ ledger (snd out).
Proof.
  destruct out as [[a|e] db']; unfold atomic_audited, atomic_writes; cbn.
  - intros Ha Hwr [Hw L]. split.
    + now apply (row_writes_wf db).
    + now apply (audited_ledger n db).
  - now intros -> _.
Qed.

Lemma replace_invariants (fault : nat -> bool) (ts : string) (df : DataFrame) (db : DB) :
  wf db /\ ledger db ->
  wf (snd (replace_db_with_df fault ts df db)) /\
  ledger (snd (replace_db_with_df fault ts df db)).
Proof.
  intros H.
  destruct (replace_outcome fault ts df db) as [(e & E & _) | (c' & Hrun & E)];
    rewrite E; cbn [snd]; [exact H|].
  destruct (replace_rows_done fault ts _ _ _ Hrun)
    as (_ & ids & _ & _ & _ & _ & _ & _ & _ & Hwf & Ha).
  cbn [work] in *. split.
  - apply Hwf. exact I.
  - apply (audited_ledger _ _ _ Ha). apply ledger_empty.
Qed.

Lemma reachable_invariants (db : DB) : reachable db -> wf db /\ ledger db.
Proof.
  induction 1 as [ | fault ts df db _ IH | fault ts df db _ IH
                   | fault ts item_id s c se q note db _ IH
                   | fault ts item_id q reason note db _ IH
                   | fault ts s c se q reason note db _ IH ].
  - split; [exact I | apply ledger_empty].
  - apply (outcome_invariants (List.length (frame_rows df)) db); try exact IH.
    + apply upsert_audited, IH.
    + apply upsert_writes.
  - now apply replace_invariants.
  - apply (outcome_invariants 1 db); try exact IH.
    + apply add_stock_audited, IH.
    + apply add_stock_writes.
  - apply (outcome_invariants 1 db); try exact IH.
    + apply remove_stock_by_id_audited, IH.
    + apply remove_stock_by_id_writes.
  - apply (outcome_invariants 1 db); try exact IH.
    + apply remove_stock_by_signature_audited, IH.
    + apply remove_stock_by_signature_writes.
Qed.

(** X7.  In every store the program can produce from the empty store, by
    merge imports, destructive imports, [add_stock] and the two removals,
    with any arguments and any store failures, the ids of the table are all
    different (and in order) and the log explains the stock: the quantity of
    every record is the sum of the deltas logged under its id, and an id
    without record has deltas that sum to 0. *)
Theorem reachable_store_is_explained_by_log (db : DB) :
  reachable db -> wf db /\ ledger db.
Proof. exact (reachable_invariants db). Qed.

Lemma reachable_store_is_explained_by_log_witness :
  reachable
    (snd (remove_stock_by_id no_fault "t2" 1 2 "sale" None
            (snd (add_stock no_fault "t1" None (Some "155 70 R13") None None 5 None
                    empty_db)))) /\
  qty_of
    (snd (remove_stock_by_id no_fault "t2" 1 2 "sale" None
            (snd (add_stock no_fault "t1" None (Some "155 70 R13") None None 5 None
                    empty_db)))) 1 =
  logged
    (snd (remove_stock_by_id no_fault "t2" 1 2 "sale" None
            (snd (add_stock no_fault "t1" None (Some "155 70 R13") None None 5 None
                    empty_db)))) 1.
Proof.
  assert (R : reachable
    (snd (remove_stock_by_id no_fault "t2" 1 2 "sale" None
            (snd (add_stock no_fault "t1" None (Some "155 70 R13") None None 5 None
                    empty_db))))).
  { apply reach_remove_id, reach_add, reach_empty. }
  split; [exact R|].
  apply (reachable_store_is_explained_by_log _ R).
Defined.

(* ------------------------------------------------------------------ *)
(** ** Removing and adding stock *)

(** X8.  Removing by an id that is not in the table raises "Item ID not
    found." and leaves the store as it is. *)
Theorem remove_unknown_id_fails (fault : nat -> bool) (ts : string)
    (item_id qty : Z) (reason : string) (note : option string) (db : DB) :
  fault 0%nat = false ->
  lookup_id item_id (items db) = None ->
  remove_stock_by_id fault ts item_id qty reason note db =
  (Err ValueError_item_id_not_found, db).
Proof.
  intros F Hl.
  unfold remove_stock_by_id, with_conn, remove_stock_by_id_body. sql_unfold.
  now rewrite F, Hl.
Qed.

Lemma remove_unknown_id_fails_witness :
  no_fault 0%nat = false /\
  lookup_id 9 (items sample_db) = None /\
  remove_stock_by_id no_fault "t1" 9 1 "sale" None sample_db =
  (Err ValueError_item_id_not_found, sample_db).
Proof.
  split; [reflexivity|]. split; [reflexivity|].
  apply (remove_unknown_id_fails no_fault "t1" 9 1 "sale" None sample_db);
    reflexivity.
Defined.

Lemma remove_stock_by_id_done (ts : string) (item_id qty : Z) (reason : string)
    (note : option string) (db : DB) (it : Item) :
  lookup_id item_id (items db) = Some it ->
  qty <= it_qty it ->
  remove_stock_by_id no_fault ts item_id qty reason note db =
  (Ok tt,
   mkDB (update_where_id item_id
           (fun x => mkItem (it_id x) (it_tyre_size x) (it_company x) (it_series x)
                            (it_qty it - qty) ts)
           (items db))
        (transactions db ++
         [mkTxn item_id (it_tyre_size it) (it_company it) (it_series it) (- qty)
                reason ts note])).
Proof.
  intros Hl Hq.
  unfold remove_stock_by_id, with_conn, remove_stock_by_id_body. sql_unfold.
  rewrite Hl. cbn.
  assert (E : (qty >? it_qty it) = false) by (rewrite Z.gtb_ltb; apply Z.ltb_ge; lia).
  now rewrite E.
Qed.

(** X9.  Removing by id at most what a record holds succeeds: the record
    keeps its size, company and series, its quantity goes down by the
    quantity removed and is not negative, its timestamp is set, no other
    record changes, and one entry is logged with the record's size, company
    and series, the negated quantity as delta and the reason given. *)
Theorem remove_by_id_takes_stock (ts : string) (item_id qty : Z) (reason : string)
    (note : option string) (db : DB) (it : Item) :
  lookup_id item_id (items db) = Some it ->
  qty <= it_qty it ->
  exists db',
    remove_stock_by_id no_fault ts item_id qty reason note db = (Ok tt, db') /\
    lookup_id item_id (items db') =
      Some (mkItem item_id (it_tyre_size it) (it_company it) (it_series it)
                   (it_qty it - qty) ts) /\
    0 <= it_qty it - qty /\
    (forall j, j <> item_id -> lookup_id j (items db') = lookup_id j (items db)) /\
    transactions db' =
      (transactions db ++
       [mkTxn item_id (it_tyre_size it) (it_company it) (it_series it) (- qty)
              reason ts note])%list.
Proof.
  intros Hl Hq. eexists.
  split; [exact (remove_stock_by_id_done ts item_id qty reason note db it Hl Hq)|].
  cbn [items transactions]. pose proof (lookup_id_In _ _ _ Hl) as [_ Hid].
  repeat split.
  - rewrite lookup_id_update by reflexivity. rewrite Hl. cbn.
    now rewrite Hid, Z.eqb_refl.
  - lia.
  - intros j Hj. rewrite lookup_id_update by reflexivity.
    destruct (lookup_id j (items db)) as [y|] eqn:Ey; cbn; [|reflexivity].
    apply lookup_id_In in Ey as [_ Ey].
    destruct (it_id y =? item_id) eqn:E; [|reflexivity].
    apply Z.eqb_eq in E. congruence.
Qed.

Lemma remove_by_id_takes_stock_witness :
  lookup_id 1 (items sample_db) =
    Some (mkItem 1 (Some "185 65 R14") (Some "Acme") None 7 "t0") /\
  7 <= 7 /\
  exists db',
    remove_stock_by_id no_fault "t1" 1 7 "damage" None sample_db = (Ok tt, db') /\
    lookup_id 1 (items db') =
      Some (mkItem 1 (Some "185 65 R14") (Some "Acme") None (7 - 7) "t1").
Proof.
  split; [reflexivity|]. split; [lia|].
  destruct (remove_by_id_takes_stock "t1" 1 7 "damage" None sample_db
              (mkItem 1 (Some "185 65 R14") (Some "Acme") None 7 "t0"))
    as (db' & E & L & _).
  - reflexivity.
  - cbn. lia.
  - exists db'. split; [exact E | exact L].
Defined.

(** X10.  Removing by signature is removing by id from the record the
    signature lookup returns, the first record in id order whose size,
    company and series are those given: both calls end alike and leave the
    same store. *)
Theorem remove_by_signature_is_remove_by_id (ts : string)
    (tyre_size company series : option string) (qty : Z) (reason : string)
    (note : option string) (db : DB) (it : Item) :
  wf db ->
  lookup_signature tyre_size company series (items db) = Some it ->
  remove_stock_by_signature no_fault ts tyre_size company series qty reason note db =
  remove_stock_by_id no_fault ts (it_id it) qty reason note db.
Proof.
  intros Hw Hl. pose proof (wf_lookup_signature db _ _ _ it Hw Hl) as Hid.
  unfold remove_stock_by_signature, remove_stock_by_id, with_conn,
    remove_stock_by_signature_body, remove_stock_by_id_body. sql_unfold.
  rewrite Hl. cbn. rewrite Hid. cbn.
  destruct (qty >? it_qty it); reflexivity.
Qed.

Lemma remove_by_signature_is_remove_by_id_witness :
  wf sample_db /\
  remove_stock_by_signature no_fault "t1" (Some "155 70 R13") None None 2 "sale"
    None sample_db =
  remove_stock_by_id no_fault "t1" 2 2 "sale" None sample_db.
Proof.
  split.
  - unfold wf; cbn; repeat constructor.
  - apply (remove_by_signature_is_remove_by_id "t1" (Some "155 70 R13") None None
             2 "sale" None sample_db
             (mkItem 2 (Some "155 70 R13") None None 3 "t0")).
    + unfold wf; cbn; repeat constructor.
    + reflexivity.
Defined.

Lemma lookup_signature_none_iff (s : string) (c se : option string)
    (its : list Item) :
  lookup_signature (Some s) c se its = None <->
  forall x, In x its ->
    ~ (it_tyre_size x = Some s /\ it_company x = c /\ it_series x = se).
Proof.
  unfold lookup_signature. split.
  - intros E x Hin Hx. apply signature_where_present in Hx.
    rewrite (find_none _ _ E x Hin) in Hx. discriminate.
  - intros H. destruct (find _ its) as [y|] eqn:E; [|reflexivity].
    apply find_some in E as [Hin Hy]. apply signature_where_present in Hy.
    now destruct (H y Hin).
Qed.

(** X11.  Removing by signature raises "Item not found by signature." and
    leaves the store as it is when no record has the size, company and
    series given, and always when no size is given: a record without size
    cannot be removed by signature. *)
Theorem remove_by_signature_without_match (fault : nat -> bool) (ts : string)
    (tyre_size company series : option string) (qty : Z) (reason : string)
    (note : option string) (db : DB) :
  fault 0%nat = false ->
  tyre_size = None \/
  (forall x, In x (items db) ->
     ~ (it_tyre_size x = tyre_size /\ it_company x = company /\ it_series x = series)) ->
  remove_stock_by_signature fault ts tyre_size company series qty reason note db =
  (Err ValueError_signature_not_found, db).
Proof.
  intros F H.
  assert (Hl : lookup_signature tyre_size company series (items db) = None).
  { destruct tyre_size as [s|]; [|apply lookup_signature_absent].
    destruct H as [H|H]; [discriminate|]. now apply lookup_signature_none_iff. }
  unfold remove_stock_by_signature, with_conn, remove_stock_by_signature_body.
  sql_unfold. now rewrite F, Hl.
Qed.

Lemma remove_by_signature_without_match_witness :
  no_fault 0%nat = false /\
  remove_stock_by_signature no_fault "t1" None (Some "Acme") None 1 "sale" None
    (mkDB [mkItem 1 None (Some "Acme") None 3 "t0"] []) =
  (Err ValueError_signature_not_found,
   mkDB [mkItem 1 None (Some "Acme") None 3 "t0"] []).
Proof.
  split; [reflexivity|].
  apply (remove_by_signature_without_match no_fault "t1" None (Some "Acme") None 1
           "sale" None (mkDB [mkItem 1 None (Some "Acme") None 3 "t0"] []));
    [reflexivity | now left].
Defined.

(** X12.  [find_item_by_signature] with a size only reads: the store is as
    it was.  It returns a record exactly when some record has the size,
    company and series given (absent company or series equal to absent
    only), and the record it returns is one of these, the one with the
    lowest id. *)
Theorem find_item_by_signature_finds_first (s : string) (company series : option string)
    (db : DB) :
  wf db ->
  exists found,
    find_item_by_signature no_fault (Some s) company series db = (Ok found, db) /\
    match found with
    | Some it =>
        In it (items db) /\
        it_tyre_size it = Some s /\ it_company it = company /\ it_series it = series /\
        forall x, In x (items db) ->
          it_tyre_size x = Some s -> it_company x = company -> it_series x = series ->
          it_id it <= it_id x
    | None =>
        forall x, In x (items db) ->
          ~ (it_tyre_size x = Some s /\ it_company x = company /\ it_series x = series)
    end.
Proof.
  intros Hw. exists (lookup_signature (Some s) company series (items db)).
  split; [reflexivity|].
  destruct (lookup_signature (Some s) company series (items db)) as [it|] eqn:Hl.
  - pose proof (lookup_signature_In _ _ _ _ _ Hl) as [Hin Hp].
    apply signature_where_present in Hp as (H1 & H2 & H3).
    repeat split; try assumption.
    intros x Hx X1 X2 X3.
    apply (find_lowest_id _ _ it x Hw Hl Hx).
    apply signature_where_present. auto.
  - now apply lookup_signature_none_iff.
Qed.

Lemma find_item_by_signature_finds_first_witness :
  wf sample_db /\
  exists found,
    find_item_by_signature no_fault (Some "155 70 R13") None None sample_db =
    (Ok found, sample_db).
Proof.
  split.
  - unfold wf; cbn; repeat constructor.
  - destruct (find_item_by_signature_finds_first "155 70 R13" None None sample_db)
      as (found & E & _).
    + unfold wf; cbn; repeat constructor.
    + exists found. exact E.
Defined.

Lemma add_stock_with_id (ts : string) (i : Z)
    (tyre_size company series : option string) (qty : Z) (note : option string)
    (db : DB) :
  add_stock no_fault ts (Some i) tyre_size company series qty note db =
  (Ok i,
   mkDB (match lookup_id i (items db) with
         | Some it =>
             update_where_id i
               (fun x => mkItem (it_id x) tyre_size company series (it_qty it + qty) ts)
               (items db)
         | None =>
             insert_by_id (mkItem i tyre_size company series qty ts) (items db)
         end)
        (transactions db ++ [mkTxn i tyre_size company series qty "stock_in" ts note])).
Proof.
  unfold add_stock, with_conn, add_stock_body. sql_unfold.
  destruct (lookup_id i (items db)) as [it|] eqn:Hl.
  - reflexivity.
  - cbn. rewrite Hl. reflexivity.
Qed.

Lemma add_stock_with_id_lookup (ts : string) (i : Z)
    (tyre_size company series : option string) (qty : Z) (note : option string)
    (db : DB) :
  lookup_id i
    (items (snd (add_stock no_fault ts (Some i) tyre_size company series qty note db)))
  = Some (mkItem i tyre_size company series (qty_of db i + qty) ts).
Proof.
  rewrite add_stock_with_id. cbn [snd items]. unfold qty_of.
  destruct (lookup_id i (items db)) as [it|] eqn:Hl.
  - rewrite lookup_id_update by reflexivity. rewrite Hl. cbn.
    apply lookup_id_In in Hl as [_ ->]. now rewrite Z.eqb_refl.
  - rewrite lookup_id_insert by exact Hl. cbn. now rewrite Z.eqb_refl.
Qed.

(** X13.  Two calls of [add_stock] with the same id add up: both return the
    id, the record under it ends with the size, company and series of the
    second call and with the quantity it had before (0 when there was no
    record) plus both quantities, and the log gains exactly two "stock_in"
    entries, with the two quantities as deltas, in call order. *)
Theorem add_stock_twice_adds_up (ts1 ts2 : string) (i : Z)
    (s1 c1 se1 s2 c2 se2 : option string) (q1 q2 : Z) (n1 n2 : option string)
    (db : DB) :
  let out1 := add_stock no_fault ts1 (Some i) s1 c1 se1 q1 n1 db in
  let out2 := add_stock no_fault ts2 (Some i) s2 c2 se2 q2 n2 (snd out1) in
  fst out1 = Ok i /\
  fst out2 = Ok i /\
  lookup_id i (items (snd out2)) =
    Some (mkItem i s2 c2 se2 (qty_of db i + q1 + q2) ts2) /\
  transactions (snd out2) =
    (transactions db ++
     [mkTxn i s1 c1 se1 q1 "stock_in" ts1 n1;
      mkTxn i s2 c2 se2 q2 "stock_in" ts2 n2])%list.
Proof.
  intros out1 out2. unfold out2, out1. repeat split.
  - now rewrite add_stock_with_id.
  - now rewrite add_stock_with_id.
  - rewrite add_stock_with_id_lookup. unfold qty_of at 1.
    now rewrite add_stock_with_id_lookup.
  - rewrite !add_stock_with_id. cbn [snd transactions].
    now rewrite <- app_assoc.
Qed.

(** X14.  Stock that is added without id and then removed in full leaves its
    record behind: the removal by the id [add_stock] returned succeeds, the
    record is still in the table with quantity 0, and the log holds the
    "stock_in" entry and the removal entry with the opposite delta. *)
Theorem add_then_remove_leaves_empty_record (ts1 ts2 : string)
    (tyre_size company series : option string) (qty : Z) (note : option string)
    (reason : string) (note' : option string) (db : DB) :
  let i := new_rowid (items db) in
  let db1 := snd (add_stock no_fault ts1 None tyre_size company series qty note db) in
  let out := remove_stock_by_id no_fault ts2 i qty reason note' db1 in
  fst (add_stock no_fault ts1 None tyre_size company series qty note db) = Ok i /\
  fst out = Ok tt /\
  lookup_id i (items (snd out)) = Some (mkItem i tyre_size company series 0 ts2) /\
  List.length (items (snd out)) = S (List.length (items db)) /\
  transactions (snd out) =
    (transactions db ++
     [mkTxn i tyre_size company series qty "stock_in" ts1 note;
      mkTxn i tyre_size company series (- qty) reason ts2 note'])%list.
Proof.
  intros i db1 out.
  assert (L1 : lookup_id i (items db1) =
               Some (mkItem i tyre_size company series qty ts1)).
  { unfold db1. rewrite add_stock_without_id. cbn [snd items].
    rewrite lookup_id_insert by apply new_rowid_fresh. cbn. now rewrite Z.eqb_refl. }
  assert (E : out = (Ok tt,
             mkDB (update_where_id i
                     (fun x => mkItem (it_id x) (it_tyre_size x) (it_company x)
                                      (it_series x) (qty - qty) ts2)
                     (items db1))
                  (transactions db1 ++
                   [mkTxn i tyre_size company series (- qty) reason ts2 note']))).
  { unfold out. rewrite (remove_stock_by_id_done ts2 i qty reason note' db1 _ L1);
      [reflexivity | cbn; lia]. }
  rewrite E. cbn [fst snd items transactions]. repeat split.
  - rewrite lookup_id_update by reflexivity. rewrite L1. cbn.
    rewrite Z.eqb_refl. now rewrite Z.sub_diag.
  - unfold update_where_id. rewrite length_map. unfold db1.
    rewrite add_stock_without_id. cbn [snd items]. apply insert_by_id_length.
  - unfold db1. rewrite add_stock_without_id. cbn [snd transactions].
    now rewrite <- app_assoc.
Qed.

(* ------------------------------------------------------------------ *)
(** ** The normaliser on sheets the claims leave out *)

(** X15.  The sheet [backup_db_to_excel] writes cannot be imported: its
    headers are the column names of the table ("tyre_size", "qty"), not the
    required names ("tyre size", "quantity"), so [read_excel_to_df] raises
    the ValueError of the header check, and the import from that sheet
    leaves the store as it is. *)
Theorem backup_sheet_is_not_importable (py_int_of_str : string -> option Z)
    (py_str_of_num : Z -> string) (fault : nat -> bool) (ts : string)
    (db current : DB) :
  read_excel_to_df py_int_of_str py_str_of_num (backup_sheet db) =
    Err (ValueError_columns ["id"; "tyre size"; "quantity"]
           ["id"; "tyre_size"; "company"; "series"; "qty"; "last_updated"]) /\
  import_merge py_int_of_str py_str_of_num fault ts (backup_sheet db) current =
    (Err (ValueError_columns ["id"; "tyre size"; "quantity"]
            ["id"; "tyre_size"; "company"; "series"; "qty"; "last_updated"]),
     current).
Proof.
  assert (E : read_excel_to_df py_int_of_str py_str_of_num (backup_sheet db) =
              Err (ValueError_columns ["id"; "tyre size"; "quantity"]
                     ["id"; "tyre_size"; "company"; "series"; "qty"; "last_updated"]))
    by reflexivity.
  split; [exact E|]. unfold import_merge. now rewrite E.
Qed.

(** X16.  A sheet that has the required headers and no data row is parsed
    to a frame without columns, and the merge import of it raises
    KeyError 'id': the import of an empty sheet is reported as an error,
    and the store is left as it is. *)
Theorem header_only_sheet_raises_key_error (py_int_of_str : string -> option Z)
    (py_str_of_num : Z -> string) (fault : nat -> bool) (ts : string)
    (cols : list string) (db : DB) :
  forallb (fun r => dict_has r (normalize_cols cols)) required = true ->
  read_excel_to_df py_int_of_str py_str_of_num (mkTable cols []) = Ok EmptyFrame /\
  import_merge py_int_of_str py_str_of_num fault ts (mkTable cols []) db =
    (Err (KeyError "id"), db).
Proof.
  intros H.
  assert (E : read_excel_to_df py_int_of_str py_str_of_num (mkTable cols []) =
              Ok EmptyFrame).
  { unfold read_excel_to_df. cbn [columns data]. now rewrite H. }
  split; [exact E|]. unfold import_merge. now rewrite E.
Qed.

Lemma header_only_sheet_raises_key_error_witness :
  forallb (fun r => dict_has r (normalize_cols ["ID"; "Tyre Size"; "Quantity"]))
    required = true /\
  import_merge (fun _ => None) (fun _ => "0") no_fault "t1"
    (mkTable ["ID"; "Tyre Size"; "Quantity"] []) sample_db =
  (Err (KeyError "id"), sample_db).
Proof.
  split; [reflexivity|].
  apply (header_only_sheet_raises_key_error (fun _ => None) (fun _ => "0") no_fault
           "t1" ["ID"; "Tyre Size"; "Quantity"] sample_db).
  reflexivity.
Defined.

Lemma canonical_row_readable (py_int_of_str : string -> option Z)
    (py_str_of_num : Z -> string) (cols : list string)
    (cols_map : list (string * string)) (row : list cell) :
  (cell_notna (row_get cols cols_map row "quantity") = true ->
   py_int py_int_of_str (row_get cols cols_map row "quantity") <> None) ->
  exists r, canonical_row py_int_of_str py_str_of_num cols cols_map row = Ok r.
Proof.
  intros H. unfold canonical_row.
  destruct (cell_notna (row_get cols cols_map row "quantity")); [|eexists; reflexivity].
  destruct (py_int py_int_of_str (row_get cols cols_map row "quantity"));
    [eexists; reflexivity | now destruct H].
Qed.

Lemma canonical_rows_abort (py_int_of_str : string -> option Z)
    (py_str_of_num : Z -> string) (cols : list string)
    (cols_map : list (string * string)) (pre post : list (list cell))
    (row : list cell) :
  Forall (fun row =>
            cell_notna (row_get cols cols_map row "quantity") = true ->
            py_int py_int_of_str (row_get cols cols_map row "quantity") <> None)
         pre ->
  cell_notna (row_get cols cols_map row "quantity") = true ->
  py_int py_int_of_str (row_get cols cols_map row "quantity") = None ->
  canonical_rows py_int_of_str py_str_of_num cols cols_map (pre ++ row :: post) =
  Err (ValueError_int (row_get cols cols_map row "quantity")).
Proof.
  intros Hpre Hn Hi. induction pre as [|x tl IH]; cbn [app canonical_rows].
  - unfold canonical_row. now rewrite Hn, Hi.
  - inversion Hpre as [|? ? Hx Htl]; subst.
    destruct (canonical_row_readable py_int_of_str py_str_of_num cols cols_map x Hx)
      as [r ->].
    now rewrite (IH Htl).
Qed.

(** X17.  Quantity cells abort the parse.  In a sheet with the required
    headers, the first row whose quantity cell is neither blank nor
    convertible by [int] makes [read_excel_to_df] raise the ValueError of
    that cell, whatever the rows after it hold; the import from that sheet
    ends with this error and no row of the sheet, also none before the bad
    one, reaches the store. *)
Theorem first_unreadable_quantity_aborts (py_int_of_str : string -> option Z)
    (py_str_of_num : Z -> string) (fault : nat -> bool) (ts : string)
    (cols : list string) (pre post : list (list cell)) (row : list cell) (db : DB) :
  let cols_map := normalize_cols cols in
  let bad := row_get cols cols_map row "quantity" in
  forallb (fun r => dict_has r cols_map) required = true ->
  Forall (fun row =>
            cell_notna (row_get cols cols_map row "quantity") = true ->
            py_int py_int_of_str (row_get cols cols_map row "quantity") <> None)
         pre ->
  cell_notna bad = true ->
  py_int py_int_of_str bad = None ->
  read_excel_to_df py_int_of_str py_str_of_num (mkTable cols (pre ++ row :: post)) =
    Err (ValueError_int bad) /\
  import_merge py_int_of_str py_str_of_num fault ts
    (mkTable cols (pre ++ row :: post)) db = (Err (ValueError_int bad), db).
Proof.
  intros cols_map bad Hreq Hpre Hn Hi.
  assert (E : read_excel_to_df py_int_of_str py_str_of_num
                (mkTable cols (pre ++ row :: post)) = Err (ValueError_int bad)).
  { unfold read_excel_to_df. cbn [columns data]. fold cols_map. rewrite Hreq.
    cbn [negb]. unfold bad.
    now rewrite (canonical_rows_abort py_int_of_str py_str_of_num cols cols_map
                   pre post row Hpre Hn Hi). }
  split; [exact E|]. unfold import_merge. now rewrite E.
Qed.

Lemma first_unreadable_quantity_aborts_witness :
  import_merge (fun _ => None) (fun _ => "0") no_fault "t1"
    (mkTable ["ID"; "Tyre Size"; "Quantity"]
       ([[Num 1; Str "185 65 R14"; Num 4]] ++
        [Num 2; Str "155 70 R13"; Str "four"] :: [[Num 3; NaN; Num 1]]))
    sample_db =
  (Err (ValueError_int (Str "four")), sample_db).
Proof.
  apply (first_unreadable_quantity_aborts (fun _ => None) (fun _ => "0") no_fault
           "t1" ["ID"; "Tyre Size"; "Quantity"]
           [[Num 1; Str "185 65 R14"; Num 4]] [[Num 3; NaN; Num 1]]
           [Num 2; Str "155 70 R13"; Str "four"] sample_db).
  - reflexivity.
  - repeat constructor; cbn; discriminate.
  - reflexivity.
  - reflexivity.
Defined.

Lemma canonical_row_id (py_int_of_str : string -> option Z)
    (py_str_of_num : Z -> string) (cols : list string)
    (cols_map : list (string * string)) (row : list cell) (r : CanonicalRow) :
  canonical_row py_int_of_str py_str_of_num cols cols_map row = Ok r ->
  r_id r = py_int py_int_of_str (row_get cols cols_map row "id").
Proof.
  unfold canonical_row. intros H.
  assert (E : (if cell_notna (row_get cols cols_map row "id")
               then py_int py_int_of_str (row_get cols cols_map row "id")
               else None) = py_int py_int_of_str (row_get cols cols_map row "id"))
    by now destruct (row_get cols cols_map row "id").
  rewrite E in H.
  destruct (cell_notna (row_get cols cols_map row "quantity")).
  - destruct (py_int py_int_of_str (row_get cols cols_map row "quantity"));
      [|discriminate].
    now injection H as <-.
  - now injection H as <-.
Qed.


Lemma strip_all_space (s : string) : all_space s = true -> strip s = "".
Proof.
  unfold strip. induction s as [|a s IH]; cbn; [reflexivity|].
  intros H. apply andb_true_iff in H as [Ha Hs]. rewrite Ha. now apply IH.
Qed.

Lemma dict_get_fold_keep (key : string) (d : list (string * string))
    (acc : option string) :
  (forall kv, In kv d -> fst kv <> key) ->
  fold_left (fun a kv => if String.eqb (fst kv) key then Some (snd kv) else a) d acc
    = acc.
Proof.
  revert acc. induction d as [|kv tl IH]; cbn; intros acc H; [reflexivity|].
  rewrite IH by (intros x Hx; apply H; now right).
  destruct (String.eqb (fst kv) key) eqn:E; [|reflexivity].
  apply String.eqb_eq in E. destruct (H kv); [now left | exact E].
Qed.

Lemma index_of_app (c : string) (pre post : list string) :
  ~ In c pre -> index_of c (pre ++ c :: post) = List.length pre.
Proof.
  induction pre as [|x tl IH]; cbn; intros H.
  - now rewrite String.eqb_refl.
  - destruct (String.eqb x c) eqn:E.
    + apply String.eqb_eq in E. destruct H. now left.
    + f_equal. apply IH. intros Hin. apply H. now right.
Qed.

(** X19.  When several headers of a sheet become the same name once
    lower-cased and stripped, the cells are read from the last of them: the
    dict of [normalize_cols] keeps the last binding of a key. *)
Theorem last_matching_header_wins (pre post : list string) (c key : string)
    (row : list cell) :
  ~ In c pre ->
  strip (lower c) = key ->
  (forall c', In c' post -> strip (lower c') <> key) ->
  row_get (pre ++ c :: post) (normalize_cols (pre ++ c :: post)) row key =
  nth (List.length pre) row NaN.
Proof.
  intros Hc Hk Hpost. unfold row_get, dict_get, normalize_cols.
  rewrite map_app. cbn [map]. rewrite fold_left_app. cbn [fold_left fst snd].
  rewrite Hk, String.eqb_refl.
  rewrite dict_get_fold_keep.
  - now rewrite index_of_app.
  - intros kv Hin. apply in_map_iff in Hin as (c' & <- & Hin). cbn.
    now apply Hpost.
Qed.

Lemma last_matching_header_wins_witness :
  row_get (["ID"] ++ "id " :: ["Tyre Size"])
    (normalize_cols (["ID"] ++ "id " :: ["Tyre Size"]))
    [Num 1; Num 2; Str "x"] "id" = Num 2.
Proof.
  apply (last_matching_header_wins ["ID"] ["Tyre Size"] "id " "id"
           [Num 1; Num 2; Str "x"]).
  - cbn. intros [H|[]]. discriminate H.
  - reflexivity.
  - cbn. intros c' [<-|[]]. cbn. discriminate.
Defined.

(* ------------------------------------------------------------------ *)
(** ** The add form and the remove form *)

Lemma add_stock_outcome (fault : nat -> bool) (ts : string) (item_id : option Z)
    (tyre_size company series : option string) (qty : Z) (note : option string)
    (db : DB) :
  add_stock fault ts item_id tyre_size company series qty note db =
  add_stock no_fault ts item_id tyre_size company series qty note db \/
  exists e, add_stock fault ts item_id tyre_size company series qty note db =
            (Err e, db).
Proof.
  unfold add_stock, with_conn, add_stock_body.
  destruct item_id as [i|]; sql_unfold.
  - destruct (fault 0%nat); cbn; [right; eexists; reflexivity|].
    destruct (lookup_id i (items db)) as [it|] eqn:Hl; cbn.
    + destruct (fault 1%nat); cbn; [right; eexists; reflexivity|].
      destruct (fault 2%nat); cbn; [right; eexists; reflexivity|].
      destruct (fault 3%nat); cbn; [right; eexists; reflexivity|].
      now left.
    + destruct (fault 1%nat); cbn; [right; eexists; reflexivity|].
      rewrite Hl. cbn.
      destruct (fault 2%nat); cbn; [right; eexists; reflexivity|].
      destruct (fault 3%nat); cbn; [right; eexists; reflexivity|].
      now left.
  - destruct (fault 0%nat); cbn; [right; eexists; reflexivity|].
    destruct (fault 1%nat); cbn; [right; eexists; reflexivity|].
    destruct (fault 2%nat); cbn; [right; eexists; reflexivity|].
    now left.
Qed.

Lemma add_stock_no_fault_record (ts : string) (item_id : option Z)
    (tyre_size company series : option string) (qty : Z) (note : option string)
    (db : DB) :
  exists i db',
    add_stock no_fault ts item_id tyre_size company series qty note db = (Ok i, db') /\
    i = match item_id with Some j => j | None => new_rowid (items db) end /\
    lookup_id i (items db') =
      Some (mkItem i tyre_size company series (qty_of db i + qty) ts) /\
    transactions db' =
      (transactions db ++ [mkTxn i tyre_size company series qty "stock_in" ts note])%list.
Proof.
  destruct item_id as [j|].
  - exists j. eexists. split; [apply add_stock_with_id|]. split; [reflexivity|].
    split; [|reflexivity].
    pose proof (add_stock_with_id_lookup ts j tyre_size company series qty note db) as L.
    rewrite add_stock_with_id in L. exact L.
  - exists (new_rowid (items db)). eexists.
    split; [apply add_stock_without_id|]. split; [reflexivity|].
    split; [|reflexivity]. cbn [items].
    rewrite lookup_id_insert by apply new_rowid_fresh. cbn [it_id].
    rewrite Z.eqb_refl. unfold qty_of. now rewrite new_rowid_fresh.
Qed.

(** X20.  The add form writes only what it reports.  When the page shows
    "Added ... Item ID: i", the size typed was not empty, the record under
    [i] holds the stripped size (never an absent size), company and series
    stripped with the empty text turned into absence, and the log ends with
    the "stock_in" entry of the quantity typed.  In every other case (size
    left empty, id that [int] rejects, store failure) the store is left as
    it was. *)
Theorem add_form_writes_what_it_reports (py_int_of_str : string -> option Z)
    (fault : nat -> bool) (ts : string)
    (id_input tyre_size company series : string) (qty_add : Z) (note : string)
    (db : DB) :
  let out := submit_add_form py_int_of_str fault ts id_input tyre_size company
               series qty_add note db in
  match fst out with
  | Shown_added i =>
      tyre_size <> "" /\
      lookup_id i (items (snd out)) =
        Some (mkItem i (Some (strip tyre_size)) (or_none (strip company))
                     (or_none (strip series)) (qty_of db i + qty_add) ts) /\
      transactions (snd out) =
        (transactions db ++
         [mkTxn i (Some (strip tyre_size)) (or_none (strip company))
                (or_none (strip series)) qty_add "stock_in" ts
                (or_none (strip note))])%list
  | _ => snd out = db
  end.
Proof.
  cbv zeta. unfold submit_add_form.
  destruct (String.eqb (strip id_input) "") eqn:Eid.
  - destruct (String.eqb tyre_size "") eqn:Es; [reflexivity|].
    apply String.eqb_neq in Es.
    destruct (add_stock_outcome fault ts None (Some (strip tyre_size))
                (or_none (strip company)) (or_none (strip series)) qty_add
                (or_none (strip note)) db) as [E|[e E]]; rewrite E.
    + destruct (add_stock_no_fault_record ts None (Some (strip tyre_size))
                  (or_none (strip company)) (or_none (strip series)) qty_add
                  (or_none (strip note)) db) as (i & db' & E' & _ & L & T).
      rewrite E'. cbn. auto.
    + reflexivity.
  - destruct (py_int_of_str (strip id_input)) as [j|]; cbn; [|reflexivity].
    destruct (String.eqb tyre_size "") eqn:Es; [reflexivity|].
    apply String.eqb_neq in Es.
    destruct (add_stock_outcome fault ts (Some j) (Some (strip tyre_size))
                (or_none (strip company)) (or_none (strip series)) qty_add
                (or_none (strip note)) db) as [E|[e E]]; rewrite E.
    + destruct (add_stock_no_fault_record ts (Some j) (Some (strip tyre_size))
                  (or_none (strip company)) (or_none (strip series)) qty_add
                  (or_none (strip note)) db) as (i & db' & E' & _ & L & T).
      rewrite E'. cbn. auto.
    + reflexivity.
Qed.

(** X21.  "Tyre Size is required" looks at the text as typed, the record
    gets the text stripped: a size of white space only passes the check, and
    with the id left blank a record whose size is the empty text is
    inserted under a new id. *)
Theorem add_form_accepts_blank_size (py_int_of_str : string -> option Z)
    (ts : string) (id_input tyre_size company series : string) (qty_add : Z)
    (note : string) (db : DB) :
  strip id_input = "" ->
  tyre_size <> "" ->
  all_space tyre_size = true ->
  let out := submit_add_form py_int_of_str no_fault ts id_input tyre_size company
               series qty_add note db in
  fst out = Shown_added (new_rowid (items db)) /\
  lookup_id (new_rowid (items db)) (items (snd out)) =
    Some (mkItem (new_rowid (items db)) (Some "") (or_none (strip company))
                 (or_none (strip series)) qty_add ts).
Proof.
  intros Hid Hs Hsp. cbv zeta. unfold submit_add_form.
  rewrite Hid. cbn [String.eqb]. apply String.eqb_neq in Hs. rewrite Hs.
  rewrite (strip_all_space _ Hsp). rewrite add_stock_without_id.
  cbn [fst snd items]. split; [reflexivity|].
  rewrite lookup_id_insert by apply new_rowid_fresh. cbn [it_id].
  now rewrite Z.eqb_refl.
Qed.

Lemma add_form_accepts_blank_size_witness :
  fst (submit_add_form (fun _ => None) no_fault "t1" "" "  " "Acme" "" 4 ""
         sample_db) = Shown_added (new_rowid (items sample_db)) /\
  lookup_id (new_rowid (items sample_db))
    (items (snd (submit_add_form (fun _ => None) no_fault "t1" "" "  " "Acme" "" 4 ""
                   sample_db))) =
  Some (mkItem (new_rowid (items sample_db)) (Some "") (or_none (strip "Acme"))
               (or_none (strip "")) 4 "t1").
Proof.
  apply (add_form_accepts_blank_size (fun _ => None) "t1" "" "  " "Acme" "" 4 ""
           sample_db).
  - reflexivity.
  - discriminate.
  - reflexivity.
Defined.

Lemma lookup_signature_insert (s : string) (c se : option string) (x : Item)
    (its : list Item) :
  it_tyre_size x = Some s -> it_company x = c -> it_series x = se ->
  (forall y, In y its ->
     ~ (it_tyre_size y = Some s /\ it_company y = c /\ it_series y = se)) ->
  lookup_signature (Some s) c se (insert_by_id x its) = Some x.
Proof.
  intros H1 H2 H3 Hno.
  assert (Hx : signature_where (Some s) c se x = true)
    by (apply signature_where_present; auto).
  unfold lookup_signature.
  induction its as [|y tl IH]; cbn.
  - now rewrite Hx.
  - destruct (it_id x <? it_id y); cbn.
    + now rewrite Hx.
    + destruct (signature_where (Some s) c se y) eqn:Ey.
      * apply signature_where_present in Ey. destruct (Hno y); [now left | exact Ey].
      * apply IH. intros z Hz. apply Hno. now right.
Qed.

(** X22.  What the add form put in, the remove form takes out.  When no
    record has the signature typed, adding a quantity through the add form
    (id left blank) and then removing the same quantity through the remove
    form by signature, with the same size, company and series typed,
    succeeds and leaves the new record in the table with quantity 0. *)
Theorem forms_add_then_remove_by_signature (py_int_of_str : string -> option Z)
    (ts1 ts2 : string) (id_input tyre_size company series : string) (qty : Z)
    (note reason note_rm rem_id : string) (db : DB) :
  strip id_input = "" ->
  tyre_size <> "" ->
  (forall y, In y (items db) ->
     ~ (it_tyre_size y = Some (strip tyre_size) /\
        it_company y = or_none (strip company) /\
        it_series y = or_none (strip series))) ->
  let i := new_rowid (items db) in
  let added := submit_add_form py_int_of_str no_fault ts1 id_input tyre_size
                 company series qty note db in
  let removed := submit_remove_form py_int_of_str no_fault ts2 By_signature rem_id
                   tyre_size company series qty reason note_rm (snd added) in
  fst added = Shown_added i /\
  fst removed = Shown_removed /\
  lookup_id i (items (snd removed)) =
    Some (mkItem i (Some (strip tyre_size)) (or_none (strip company))
                 (or_none (strip series)) 0 ts2) /\
  List.length (items (snd removed)) = S (List.length (items db)).
Proof.
  intros Hid Hs Hno i added removed.
  assert (Ea : added =
    (Shown_added i,
     mkDB (insert_by_id (mkItem i (Some (strip tyre_size)) (or_none (strip company))
                                (or_none (strip series)) qty ts1) (items db))
          (transactions db ++
           [mkTxn i (Some (strip tyre_size)) (or_none (strip company))
                  (or_none (strip series)) qty "stock_in" ts1
                  (or_none (strip note))]))).
  { unfold added, submit_add_form. rewrite Hid. cbn [String.eqb].
    apply String.eqb_neq in Hs. rewrite Hs. now rewrite add_stock_without_id. }
  assert (Hl : lookup_signature (Some (strip tyre_size)) (or_none (strip company))
                 (or_none (strip series)) (insert_by_id
       (mkItem i (Some (strip tyre_size)) (or_none (strip company))
                   (or_none (strip series)) qty ts1)
       (items db)) =
     Some (mkItem i (Some (strip tyre_size)) (or_none (strip company))
                   (or_none (strip series)) qty ts1))
    by (apply lookup_signature_insert; auto).
  assert (Hi : lookup_id i (insert_by_id
       (mkItem i (Some (strip tyre_size)) (or_none (strip company))
                   (or_none (strip series)) qty ts1)
       (items db)) =
     Some (mkItem i (Some (strip tyre_size)) (or_none (strip company))
                   (or_none (strip series)) qty ts1)).
  { rewrite lookup_id_insert by apply new_rowid_fresh. cbn [it_id].
    now rewrite Z.eqb_refl. }
  assert (Er : removed =
    (Shown_removed,
     mkDB (update_where_id i
             (fun y => mkItem (it_id y) (it_tyre_size y) (it_company y) (it_series y)
                              (qty - qty) ts2)
             (insert_by_id
       (mkItem i (Some (strip tyre_size)) (or_none (strip company))
                   (or_none (strip series)) qty ts1)
       (items db)))
          ((transactions db ++
            [mkTxn i (Some (strip tyre_size)) (or_none (strip company))
                   (or_none (strip series)) qty "stock_in" ts1
                   (or_none (strip note))]) ++
           [mkTxn i (Some (strip tyre_size)) (or_none (strip company))
                  (or_none (strip series)) (- qty) reason ts2
                  (or_none (strip note_rm))]))).
  { unfold removed, submit_remove_form. rewrite Ea. cbn [snd].
    apply String.eqb_neq in Hs. rewrite Hs. unfold i in *.
    unfold remove_stock_by_signature, with_conn, remove_stock_by_signature_body.
    sql_unfold. unfold lookup_signature in Hl. rewrite Hl. cbn.
    assert (G : (qty >? qty) = false) by (rewrite Z.gtb_ltb; apply Z.ltb_irrefl).
    rewrite G. reflexivity. }
  rewrite Ea, Er. cbn [fst snd items]. split; [reflexivity|]. split; [reflexivity|].
  split.
  - rewrite lookup_id_update by reflexivity. rewrite Hi. cbn.
    rewrite Z.eqb_refl. now rewrite Z.sub_diag.
  - unfold update_where_id. rewrite length_map. apply insert_by_id_length.
Qed.

Lemma forms_add_then_remove_by_signature_witness :
  fst (submit_remove_form (fun _ => None) no_fault "t2" By_signature ""
         " 205 55 R16" "Acme " "" 4 "sale" ""
         (snd (submit_add_form (fun _ => None) no_fault "t1" " " " 205 55 R16"
                 "Acme " "" 4 "" sample_db))) = Shown_removed.
Proof.
  apply (forms_add_then_remove_by_signature (fun _ => None) "t1" "t2" " "
           " 205 55 R16" "Acme " "" 4 "" "sale" "" "" sample_db).
  - reflexivity.
  - discriminate.
  - intros y Hy. cbn in Hy.
    destruct Hy as [<-|[<-|[]]]; cbn; intros (H & _); discriminate H.
Defined.

(** X23.  The remove form writes only when it reports a removal: when it
    shows anything but "Removed ..." (id or size left empty, id that [int]
    rejects, unknown record, not enough stock, store failure) the store is
    left as it was; and when it reports a removal, no id has left the table
    and the old log is the beginning of the new one. *)
Theorem remove_form_writes_what_it_reports (py_int_of_str : string -> option Z)
    (fault : nat -> bool) (ts : string) (mode : rem_mode)
    (rem_id rem_tyre rem_company rem_series : string) (qty_rm : Z)
    (reason note_rm : string) (db : DB) :
  let out := submit_remove_form py_int_of_str fault ts mode rem_id rem_tyre
               rem_company rem_series qty_rm reason note_rm db in
  match fst out with
  | Shown_removed => keeps db (snd out)
  | _ => snd out = db
  end.
Proof.
  cbv zeta. unfold submit_remove_form. destruct mode.
  - destruct (String.eqb (strip rem_id) ""); [reflexivity|].
    destruct (py_int_of_str (strip rem_id)) as [i|]; [|reflexivity].
    pose proof (remove_stock_by_id_writes fault ts i qty_rm reason
                  (or_none (strip note_rm)) db) as H.
    unfold atomic_writes in H.
    destruct (remove_stock_by_id fault ts i qty_rm reason
                (or_none (strip note_rm)) db) as [[u|e] db']; cbn in *.
    + now apply row_writes_keeps.
    + exact H.
  - destruct (String.eqb rem_tyre ""); [reflexivity|].
    pose proof (remove_stock_by_signature_writes fault ts (Some (strip rem_tyre))
                  (or_none (strip rem_company)) (or_none (strip rem_series)) qty_rm
                  reason (or_none (strip note_rm)) db) as H.
    unfold atomic_writes in H.
    destruct (remove_stock_by_signature fault ts (Some (strip rem_tyre))
                (or_none (strip rem_company)) (or_none (strip rem_series)) qty_rm
                reason (or_none (strip note_rm)) db) as [[u|e] db']; cbn in *.
    + now apply row_writes_keeps.
    + exact H.
Qed.

(* ------------------------------------------------------------------ *)
(** ** Rows that meet no record, and sheets imported one after the other *)

(** X24.  A row that meets no record makes one.  A row with an id that is
    not in the table is inserted under that id, with reason "import_upsert";
    a row without id whose signature no record has (always so when the row
    has no size) is inserted under the next rowid, with reason "import_new".
    The new record holds the row's fields and quantity, no other record
    changes, and the table grows by one. *)
Theorem import_row_without_match_inserts (ts : string) (db : DB) (r : CanonicalRow) :
  match r_id r with
  | Some i => lookup_id i (items db) = None
  | None =>
      lookup_signature (r_tyre_size r) (r_company r) (r_series r) (items db) = None
  end ->
  let i := match r_id r with Some i => i | None => new_rowid (items db) end in
  let reason := match r_id r with Some _ => "import_upsert" | None => "import_new" end in
  let note := match r_id r with
              | Some _ => "import from excel"
              | None => "new row from excel"
              end in
  exists db',
    upsert_items_from_df no_fault ts (Frame [r]) db = (Ok tt, db') /\
    lookup_id i (items db') =
      Some (mkItem i (r_tyre_size r) (r_company r) (r_series r) (r_qty r) ts) /\
    (forall j, j <> i -> lookup_id j (items db') = lookup_id j (items db)) /\
    List.length (items db') = S (List.length (items db)) /\
    transactions db' =
      (transactions db ++
       [mkTxn i (r_tyre_size r) (r_company r) (r_series r) (r_qty r) reason ts
              (Some note)])%list.
Proof.
  intros H i reason note.
  assert (Hfresh : lookup_id i (items db) = None).
  { unfold i. destruct (r_id r); [exact H | apply new_rowid_fresh]. }
  exists (mkDB (insert_by_id
                  (mkItem i (r_tyre_size r) (r_company r) (r_series r) (r_qty r) ts)
                  (items db))
               (transactions db ++
                [mkTxn i (r_tyre_size r) (r_company r) (r_series r) (r_qty r) reason ts
                       (Some note)])).
  split; [|cbn [items transactions]; repeat split].
  - unfold i, reason, note. destruct (r_id r) as [j|] eqn:Hj.
    + rewrite (import_one_id_row ts r j db Hj).
      now rewrite (merge_id_row_new ts db r j Hj H).
    + rewrite (import_one_no_id_row ts r db Hj).
      now rewrite (merge_no_id_row_new ts db r H).
  - rewrite lookup_id_insert by exact Hfresh. cbn [it_id]. now rewrite Z.eqb_refl.
  - intros j Hj. rewrite lookup_id_insert by exact Hfresh. cbn [it_id].
    destruct (i =? j) eqn:E; [|reflexivity]. apply Z.eqb_eq in E. congruence.
  - apply insert_by_id_length.
Qed.

Lemma import_row_without_match_inserts_witness :
  exists db',
    upsert_items_from_df no_fault "t1"
      (Frame [mkRow None None (Some "Acme") None 4]) sample_db = (Ok tt, db') /\
    lookup_id 3 (items db') = Some (mkItem 3 None (Some "Acme") None 4 "t1").
Proof.
  destruct (import_row_without_match_inserts "t1" sample_db
              (mkRow None None (Some "Acme") None 4)) as (db' & E & L & _).
  - reflexivity.
  - exists db'. split; [exact E | exact L].
Defined.



(* ------------------------------------------------------------------ *)
(** ** Quick stats and the log *)

Lemma sum_where_ext (p q : Txn -> bool) (log : list Txn) :
  (forall e, In e log -> p e = q e) -> sum_where p log = sum_where q log.
Proof.
  unfold sum_where. induction log as [|e tl IH]; cbn; intros H; [reflexivity|].
  rewrite <- (H e) by now left.
  destruct (p e); cbn; rewrite IH; auto.
Qed.

Lemma sum_where_false (p : Txn -> bool) (log : list Txn) :
  (forall e, In e log -> p e = false) -> sum_where p log = 0.
Proof.
  unfold sum_where. induction log as [|e tl IH]; cbn; intros H; [reflexivity|].
  rewrite (H e) by now left. apply IH. auto.
Qed.

Lemma sum_where_or (p q : Txn -> bool) (log : list Txn) :
  (forall e, In e log -> p e && q e = false) ->
  sum_where (fun e => p e || q e) log = sum_where p log + sum_where q log.
Proof.
  unfold sum_where. induction log as [|e tl IH]; cbn; intros H; [reflexivity|].
  specialize (IH (fun x Hx => H x (or_intror Hx))).
  pose proof (H e (or_introl eq_refl)) as He.
  destruct (p e), (q e); cbn in *; try discriminate; lia.
Qed.

Lemma sum_where_filter (p q : Txn -> bool) (log : list Txn) :
  sum_where p (filter q log) = sum_where (fun e => q e && p e) log.
Proof.
  unfold sum_where. induction log as [|e tl IH]; cbn; [reflexivity|].
  destruct (q e); cbn; [destruct (p e); cbn; now rewrite IH | exact IH].
Qed.

(** Groups that each sum to 0 sum to 0 together. *)
Lemma sum_where_groups (P : Z -> bool) (n : nat) (log : list Txn) :
  (List.length log <= n)%nat ->
  (forall j, P j = true -> sum_where (fun e => tx_item_id e =? j) log = 0) ->
  sum_where (fun e => P (tx_item_id e)) log = 0.
Proof.
  revert log. induction n as [|n IH]; intros log Hn H.
  - destruct log; [reflexivity | cbn in Hn; lia].
  - destruct log as [|e tl]; [reflexivity|]. cbn in Hn.
    set (j0 := tx_item_id e).
    destruct (P j0) eqn:Ep.
    + rewrite (sum_where_ext _
                 (fun x => (tx_item_id x =? j0) ||
                           (negb (tx_item_id x =? j0) && P (tx_item_id x)))).
      2:{ intros x _. destruct (tx_item_id x =? j0) eqn:E; cbn; [|reflexivity].
          apply Z.eqb_eq in E. now rewrite E. }
      rewrite sum_where_or.
      2:{ intros x _. now destruct (tx_item_id x =? j0). }
      rewrite (H j0 Ep). cbn [Z.add].
      rewrite <- (sum_where_filter (fun x => P (tx_item_id x))
                    (fun x => negb (tx_item_id x =? j0))).
      apply IH.
      * cbn. unfold j0. rewrite Z.eqb_refl. cbn.
        pose proof (filter_length_le (fun x => negb (tx_item_id x =? tx_item_id e)) tl).
        lia.
      * intros j Hj. rewrite sum_where_filter.
        destruct (Z.eq_dec j j0) as [->|Hne].
        -- apply sum_where_false. intros x _. now destruct (tx_item_id x =? j0).
        -- rewrite <- (H j Hj). apply sum_where_ext. intros x _.
           destruct (tx_item_id x =? j) eqn:E; [|now rewrite andb_false_r].
           apply Z.eqb_eq in E. rewrite E.
           apply Z.eqb_neq in Hne. now rewrite Hne.
    + assert (E0 : sum_where (fun x => P (tx_item_id x)) (e :: tl) =
                   sum_where (fun x => P (tx_item_id x)) tl).
      { unfold sum_where. cbn. fold j0. now rewrite Ep. }
      rewrite E0. apply IH; [lia|].
      intros j Hj. rewrite <- (H j Hj). unfold sum_where. cbn. fold j0.
      destruct (j0 =? j) eqn:E; [|reflexivity].
      apply Z.eqb_eq in E. congruence.
Qed.

Lemma sum_where_ids (l : list Z) (log : list Txn) :
  increasing l ->
  fold_right Z.add 0 (map (fun i => sum_where (fun e => tx_item_id e =? i) log) l) =
  sum_where (fun e => existsb (fun i => tx_item_id e =? i) l) log.
Proof.
  induction l as [|i tl IH]; cbn [map fold_right increasing].
  - intros _. symmetry. now apply sum_where_false.
  - intros [Hi Htl]. rewrite (IH Htl).
    rewrite <- sum_where_or; [reflexivity|].
    intros e _. destruct (tx_item_id e =? i) eqn:E; [|reflexivity]. cbn.
    apply Z.eqb_eq in E. rewrite E.
    apply not_true_is_false. intros Hex. apply existsb_exists in Hex as (k & Hk & Ek).
    apply Z.eqb_eq in Ek. rewrite Forall_forall in Hi. specialize (Hi k Hk). lia.
Qed.

Lemma lookup_id_not_listed (j : Z) (its : list Item) :
  existsb (fun i => j =? i) (map it_id its) = false -> lookup_id j its = None.
Proof.
  unfold lookup_id. induction its as [|x tl IH]; cbn; [reflexivity|].
  intros H. apply orb_false_iff in H as [H1 H2].
  rewrite Z.eqb_sym, H1. now apply IH.
Qed.

Lemma wrap64_small (z : Z) : - 2 ^ 63 <= z < 2 ^ 63 -> wrap64 z = z.
Proof.
  intros H. unfold wrap64. rewrite Z.mod_small; lia.
Qed.

Lemma ledger_total (db : DB) :
  wf db -> ledger db -> total_units db = wrap64 (log_total db).
Proof.
  intros Hw L. unfold total_units, get_items_df. cbn [frame_rows]. f_equal.
  rewrite (increasing_order_by_id _ Hw), map_map. cbn [row_of_item r_qty].
  rewrite (map_ext_in _ (fun it => logged db (it_id it))).
  2:{ intros it Hin. rewrite <- L. unfold qty_of.
      now rewrite (increasing_lookup _ _ Hw Hin). }
  rewrite <- (map_map it_id (logged db)).
  change (map (logged db) (map it_id (items db)))
    with (map (fun i => sum_where (fun e => tx_item_id e =? i) (transactions db))
              (map it_id (items db))).
  rewrite (sum_where_ids _ _ Hw).
  unfold log_total.
  set (inside := fun e => existsb (fun i => tx_item_id e =? i) (map it_id (items db))).
  rewrite (sum_where_ext (fun _ => true) (fun e => inside e || negb (inside e))).
  2:{ intros e _. now destruct (inside e). }
  rewrite sum_where_or.
  2:{ intros e _. now destruct (inside e). }
  assert (Z0 : sum_where (fun e => negb (inside e)) (transactions db) = 0).
  { apply (sum_where_groups
             (fun j => negb (existsb (fun i => j =? i) (map it_id (items db))))
             (List.length (transactions db))); [lia|].
    intros j Hj. apply negb_true_iff in Hj. apply lookup_id_not_listed in Hj.
    change (logged db j = 0). rewrite <- L. unfold qty_of. now rewrite Hj. }
  rewrite Z0. lia.
Qed.

(** X26.  "Total units in stock" is what the log adds up to, as an int64.
    In every store the program can produce from the empty store, the total
    the page shows (the int64 sum of the quantity column of the frame of
    [get_items_df]) is the sum of the deltas of all log entries wrapped
    around to 64 bits; it is that sum itself when the sum fits in 64
    bits. *)
Theorem total_units_is_log_total (db : DB) :
  reachable db ->
  total_units db = wrap64 (log_total db) /\
  (- 2 ^ 63 <= log_total db < 2 ^ 63 -> total_units db = log_total db).
Proof.
  intros H. destruct (reachable_invariants db H) as [Hw L].
  pose proof (ledger_total db Hw L) as E. split; [exact E|].
  intros Hr. rewrite E. now apply wrap64_small.
Qed.

Lemma total_units_is_log_total_witness :
  reachable (snd (add_stock no_fault "t2" None (Some "155 70 R13") None None
                    (2 ^ 62) None
                    (snd (add_stock no_fault "t1" None (Some "185 65 R14") None None
                            (2 ^ 62) None empty_db)))) /\
  total_units (snd (add_stock no_fault "t2" None (Some "155 70 R13") None None
                      (2 ^ 62) None
                      (snd (add_stock no_fault "t1" None (Some "185 65 R14") None
                              None (2 ^ 62) None empty_db)))) = - 2 ^ 63.
Proof.
  assert (R : reachable (snd (add_stock no_fault "t2" None (Some "155 70 R13") None
                                None (2 ^ 62) None
                    (snd (add_stock no_fault "t1" None (Some "185 65 R14") None None
                            (2 ^ 62) None empty_db)))))
    by (apply reach_add, reach_add, reach_empty).
  split; [exact R|].
  destruct (total_units_is_log_total _ R) as [E _]. rewrite E. reflexivity.
Defined.

(* ------------------------------------------------------------------ *)
(** ** Sheets imported one after the other *)












Lemma filter_notna_ids (rows : list CanonicalRow) :
  Forall (fun r => r_id r <> None) (filter (fun r => notna (r_id r)) rows).
Proof.
  apply Forall_forall. intros r Hr. apply filter_In in Hr as [_ Hr].
  now destruct (r_id r).
Qed.





(* ------------------------------------------------------------------ *)
(** ** From the cells of a sheet to the records of the store *)

Lemma combine_map_same {A B C : Type} (F : A -> B -> C) (h : A -> B) (l : list A) :
  map (fun p => F (fst p) (snd p)) (combine l (map h l)) = map (fun x => F x (h x)) l.
Proof.
  induction l as [|x tl IH]; cbn; [reflexivity | now rewrite IH].
Qed.

(** The rows of [pd.DataFrame(rows)]: the rows given, each with its id as the
    id column holds it; an id is there exactly when the row had one. *)
Lemma pd_DataFrame_rows (rows : list CanonicalRow) :
  exists g : option Z -> option Z,
    (forall i, g i = None <-> i = None) /\
    pd_DataFrame rows =
    match rows with
    | [] => EmptyFrame
    | _ => Frame (map (fun r => with_id r (g (r_id r))) rows)
    end.
Proof.
  destruct rows as [|r0 tl].
  - exists (fun i => i). split; [tauto | reflexivity].
  - unfold pd_DataFrame, id_column.
    destruct (existsb isna (map r_id (r0 :: tl)) &&
              existsb notna (map r_id (r0 :: tl))).
    + exists (option_map float64_int). split.
      * intros [i|]; cbn; split; congruence.
      * rewrite map_map.
        now rewrite (combine_map_same with_id
                       (fun r => option_map float64_int (r_id r))).
    + exists (fun i => i). split; [tauto|].
      now rewrite (combine_map_same with_id r_id).
Qed.

(** An id column with a gap is float64: an id above 2^53 comes back
    rounded. *)
Lemma id_column_rounds :
  id_column [Some (2 ^ 53 + 1); None] = [Some (2 ^ 53); None] /\
  id_column [Some (2 ^ 53 + 1); Some 7] = [Some (2 ^ 53 + 1); Some 7] /\
  float64_int (2 ^ 53 + 3) = 2 ^ 53 + 4 /\
  float64_int (- (2 ^ 63 - 1)) = - 2 ^ 63 /\
  float64_int 123456789 = 123456789.
Proof. repeat split. Qed.

(** What [read_excel_to_df] returns for a sheet with the required headers
    whose quantity cells are blank or convert: a frame with one row per row
    of the sheet, in order, each the canonical row of its cells with the id
    as the id column holds it. *)
Lemma read_excel_frame (py_int_of_str : string -> option Z)
    (py_str_of_num : Z -> string) (df : Table) :
  let cols_map := normalize_cols (columns df) in
  forallb (fun r => dict_has r cols_map) required = true ->
  Forall (fun row =>
            cell_notna (row_get (columns df) cols_map row "quantity") = true ->
            py_int py_int_of_str (row_get (columns df) cols_map row "quantity")
              <> None)
         (data df) ->
  exists frame : list CanonicalRow,
    read_excel_to_df py_int_of_str py_str_of_num df =
      Ok (match data df with [] => EmptyFrame | _ => Frame frame end) /\
    List.length frame = List.length (data df) /\
    forall k row, nth_error (data df) k = Some row ->
      exists r i,
        canonical_row py_int_of_str py_str_of_num (columns df) cols_map row = Ok r /\
        (i = None <-> r_id r = None) /\
        nth_error frame k = Some (with_id r i).
Proof.
  intros cols_map Hreq Hqty.
  destruct (canonical_rows_nth py_int_of_str py_str_of_num (columns df) cols_map
              (data df) Hqty) as (rows & E & L & N).
  destruct (pd_DataFrame_rows rows) as (g & Hg & Hp).
  exists (map (fun r => with_id r (g (r_id r))) rows).
  split; [|split].
  - unfold read_excel_to_df. fold cols_map. rewrite Hreq, E. cbn [negb].
    rewrite Hp. destruct rows, (data df); cbn in L; try discriminate; reflexivity.
  - now rewrite length_map.
  - intros k row Hk. destruct (N k row Hk) as (r & Hr & Hc).
    exists r, (g (r_id r)). split; [exact Hc|]. split; [apply Hg|].
    now rewrite nth_error_map, Hr.
Qed.

Lemma merge_id_row_lookup (ts : string) (w : DB) (r : CanonicalRow) (j : Z) :
  r_id r = Some j ->
  lookup_id j (items (merge_id_row ts w r)) =
  Some (mkItem j (r_tyre_size r) (r_company r) (r_series r) (qty_of w j + r_qty r) ts).
Proof.
  intros Hj. unfold qty_of. destruct (lookup_id j (items w)) as [it|] eqn:Hl.
  - rewrite (merge_id_row_found ts w r j it Hj Hl). cbn [items].
    rewrite lookup_id_update by reflexivity. rewrite Hl. cbn.
    apply lookup_id_In in Hl as [_ ->]. now rewrite Z.eqb_refl.
  - rewrite (merge_id_row_new ts w r j Hj Hl). cbn [items].
    rewrite lookup_id_insert by exact Hl. cbn. now rewrite Z.eqb_refl.
Qed.

Lemma merge_id_row_other (ts : string) (w : DB) (r : CanonicalRow) (j j' : Z) :
  r_id r = Some j' -> j <> j' ->
  lookup_id j (items (merge_id_row ts w r)) = lookup_id j (items w).
Proof.
  intros Hj Hne. destruct (lookup_id j' (items w)) as [it|] eqn:Hl.
  - rewrite (merge_id_row_found ts w r j' it Hj Hl). cbn [items].
    rewrite lookup_id_update by reflexivity.
    destruct (lookup_id j (items w)) as [y|] eqn:Ey; cbn; [|reflexivity].
    apply lookup_id_In in Ey as [_ Ey].
    destruct (it_id y =? j') eqn:E; [|reflexivity].
    apply Z.eqb_eq in E. congruence.
  - rewrite (merge_id_row_new ts w r j' Hj Hl). cbn [items].
    rewrite lookup_id_insert by exact Hl. cbn.
    destruct (j' =? j) eqn:E; [|reflexivity]. apply Z.eqb_eq in E. congruence.
Qed.

Lemma merge_id_row_wf (ts : string) (w : DB) (r : CanonicalRow) :
  r_id r <> None -> wf w -> wf (merge_id_row ts w r).
Proof.
  intros Hr Hw. destruct (r_id r) as [i|] eqn:Hi; [|now destruct Hr].
  exact (row_write_wf _ _ (merge_id_row_write ts w r i Hi) Hw).
Qed.

Lemma merge_no_id_row_wf (ts : string) (w : DB) (r : CanonicalRow) :
  wf w -> wf (merge_no_id_row ts w r).
Proof. exact (row_write_wf _ _ (merge_no_id_row_write ts w r)). Qed.

(** A record without size is out of reach of the rows without id: their
    lookup never returns it. *)
Lemma merge_no_id_row_keeps_sizeless (ts : string) (w : DB) (r : CanonicalRow)
    (j : Z) (x : Item) :
  wf w -> lookup_id j (items w) = Some x -> it_tyre_size x = None ->
  lookup_id j (items (merge_no_id_row ts w r)) = Some x.
Proof.
  intros Hw Hx Hs.
  destruct (lookup_signature (r_tyre_size r) (r_company r) (r_series r) (items w))
    as [it|] eqn:Hl.
  - rewrite (merge_no_id_row_found ts w r it Hl). cbn [items].
    rewrite lookup_id_update by reflexivity. rewrite Hx. cbn.
    destruct (it_id x =? it_id it) eqn:E; [|reflexivity].
    apply Z.eqb_eq in E.
    pose proof (wf_lookup_signature w _ _ _ it Hw Hl) as Hit.
    pose proof (lookup_id_In _ _ _ Hx) as [_ Hxj].
    rewrite <- E, Hxj, Hx in Hit. injection Hit as <-.
    destruct (r_tyre_size r) as [s|] eqn:Hr.
    + apply lookup_signature_In in Hl as [_ Hp].
      apply signature_where_present in Hp as [Hp _]. congruence.
    + now rewrite lookup_signature_absent in Hl.
  - rewrite (merge_no_id_row_new ts w r Hl). cbn [items].
    rewrite lookup_id_insert by apply new_rowid_fresh. cbn [it_id].
    destruct (new_rowid (items w) =? j) eqn:E; [|exact Hx].
    apply Z.eqb_eq in E. rewrite <- E, new_rowid_fresh in Hx. discriminate.
Qed.

Lemma fold_id_wf (ts : string) (rows : list CanonicalRow) :
  Forall (fun r => r_id r <> None) rows ->
  forall w, wf w -> wf (fold_left (merge_id_row ts) rows w).
Proof.
  induction 1 as [|r tl Hr _ IH]; intros w Hw; cbn; [exact Hw|].
  apply IH. now apply merge_id_row_wf.
Qed.

Lemma fold_no_id_wf (ts : string) (rows : list CanonicalRow) :
  forall w, wf w -> wf (fold_left (merge_no_id_row ts) rows w).
Proof.
  induction rows as [|r tl IH]; intros w Hw; cbn; [exact Hw|].
  apply IH. now apply merge_no_id_row_wf.
Qed.

Lemma fold_id_other (ts : string) (j : Z) (rows : list CanonicalRow) :
  Forall (fun r => r_id r <> None /\ r_id r <> Some j) rows ->
  forall w, lookup_id j (items (fold_left (merge_id_row ts) rows w)) =
            lookup_id j (items w).
Proof.
  induction 1 as [|r tl [Hr Hj] _ IH]; intros w; cbn; [reflexivity|].
  rewrite IH. destruct (r_id r) as [j'|] eqn:E; [|now destruct Hr].
  apply (merge_id_row_other ts w r j j' E). congruence.
Qed.

Lemma fold_no_id_keeps_sizeless (ts : string) (j : Z) (x : Item)
    (rows : list CanonicalRow) :
  it_tyre_size x = None ->
  forall w, wf w -> lookup_id j (items w) = Some x ->
  lookup_id j (items (fold_left (merge_no_id_row ts) rows w)) = Some x.
Proof.
  intros Hs. induction rows as [|r tl IH]; intros w Hw Hx; cbn; [exact Hx|].
  apply IH; [now apply merge_no_id_row_wf|].
  now apply merge_no_id_row_keeps_sizeless.
Qed.

Lemma fold_id_keeps (ts : string) (rows : list CanonicalRow) :
  Forall (fun r => r_id r <> None) rows ->
  forall w, keeps w (fold_left (merge_id_row ts) rows w).
Proof.
  induction 1 as [|r tl Hr _ IH]; intros w; cbn; [apply keeps_refl|].
  apply (keeps_trans _ (merge_id_row ts w r)); [|apply IH].
  destruct (r_id r) as [i|] eqn:Hi; [|now destruct Hr].
  apply row_write_keeps. now apply (merge_id_row_write ts w r i).
Qed.

Lemma fold_no_id_keeps (ts : string) (rows : list CanonicalRow) :
  forall w, keeps w (fold_left (merge_no_id_row ts) rows w).
Proof.
  induction rows as [|r tl IH]; intros w; cbn; [apply keeps_refl|].
  apply (keeps_trans _ (merge_no_id_row ts w r)); [|apply IH].
  apply row_write_keeps, merge_no_id_row_write.
Qed.

Lemma later_rows (frame l1 l2 : list CanonicalRow) (r : CanonicalRow)
    (P : CanonicalRow -> Prop) :
  frame = (l1 ++ r :: l2)%list ->
  (forall k' r', (List.length l1 < k')%nat -> nth_error frame k' = Some r' -> P r') ->
  Forall P l2.
Proof.
  intros -> H. apply Forall_forall. intros r' Hin.
  apply In_nth_error in Hin as [m Hm].
  apply (H (List.length l1 + S m)%nat); [lia|].
  rewrite nth_error_app2 by lia.
  replace (List.length l1 + S m - List.length l1)%nat with (S m) by lia.
  exact Hm.
Qed.

(** A row without size on its way through the two loops of the import: the
    record it sets or inserts is without size, and stays so to the end of
    the import unless a later row with the same id overwrites it. *)
Lemma sizeless_row_reaches_store (ts : string) (db : DB)
    (frame : list CanonicalRow) (k : nat) (r : CanonicalRow) :
  wf db ->
  nth_error frame k = Some r ->
  r_tyre_size r = None ->
  (forall k' r', (k < k')%nat -> nth_error frame k' = Some r' ->
     r_id r = None \/ r_id r' <> r_id r) ->
  exists i it,
    lookup_id i (items (merged ts frame db)) = Some it /\
    it_tyre_size it = None /\
    it_company it = r_company r /\
    it_series it = r_series r /\
    it_last_updated it = ts /\
    match r_id r with
    | Some j => i = j
    | None => lookup_id i (items db) = None /\ it_qty it = r_qty r
    end.
Proof.
  intros Hw Hk Hs Hlater.
  destruct (nth_error_split _ _ Hk) as (l1 & l2 & Hf & Hlen). subst k.
  pose proof (later_rows frame l1 l2 r _ Hf Hlater) as Hl2.
  unfold merged. rewrite Hf, !filter_app. cbn [filter].
  destruct (r_id r) as [j|] eqn:Hj; cbn [notna isna negb].
  - (* a row with id *)
    rewrite (fold_left_app (merge_id_row ts)). cbn [fold_left].
    set (W1 := fold_left (merge_id_row ts) (filter (fun r => notna (r_id r)) l1) db).
    assert (Hw1 : wf W1) by (apply fold_id_wf; [apply filter_notna_ids | exact Hw]).
    set (x := mkItem j (r_tyre_size r) (r_company r) (r_series r)
                     (qty_of W1 j + r_qty r) ts).
    assert (Hx : lookup_id j (items (merge_id_row ts W1 r)) = Some x)
      by now apply merge_id_row_lookup.
    assert (Hw2 : wf (merge_id_row ts W1 r))
      by (apply merge_id_row_wf; [congruence | exact Hw1]).
    set (W3 := fold_left (merge_id_row ts) (filter (fun r => notna (r_id r)) l2)
                 (merge_id_row ts W1 r)).
    assert (Hx3 : lookup_id j (items W3) = Some x).
    { unfold W3. rewrite fold_id_other; [exact Hx|].
      apply Forall_forall. intros r' Hr'. apply filter_In in Hr' as [Hin Hn].
      rewrite Forall_forall in Hl2. split; [now destruct (r_id r')|].
      destruct (Hl2 r' Hin) as [H|H]; [discriminate | exact H]. }
    assert (Hw3 : wf W3) by (apply fold_id_wf; [apply filter_notna_ids | exact Hw2]).
    exists j, x. split.
    + apply fold_no_id_keeps_sizeless; [exact Hs | exact Hw3 | exact Hx3].
    + cbn. rewrite Hs. repeat split.
  - (* a row without id *)
    rewrite (fold_left_app (merge_no_id_row ts)). cbn [fold_left].
    set (W0 := fold_left (merge_id_row ts)
                 (filter (fun r => notna (r_id r)) l1 ++
                  filter (fun r => notna (r_id r)) l2) db).
    assert (Hids : Forall (fun r => r_id r <> None)
                     (filter (fun r => notna (r_id r)) l1 ++
                      filter (fun r => notna (r_id r)) l2))
      by (apply Forall_app; split; apply filter_notna_ids).
    assert (Hw0 : wf W0) by (apply fold_id_wf; [exact Hids | exact Hw]).
    set (W1 := fold_left (merge_no_id_row ts)
                 (filter (fun r => isna (r_id r)) l1) W0).
    assert (Hw1 : wf W1) by (apply fold_no_id_wf; exact Hw0).
    assert (Hk1 : keeps db W1).
    { apply (keeps_trans _ W0); [apply fold_id_keeps; exact Hids|].
      apply fold_no_id_keeps. }
    set (n := new_rowid (items W1)).
    set (x := mkItem n (r_tyre_size r) (r_company r) (r_series r) (r_qty r) ts).
    assert (Hnone : lookup_signature (r_tyre_size r) (r_company r) (r_series r)
                      (items W1) = None)
      by (rewrite Hs; apply lookup_signature_absent).
    assert (Hx : lookup_id n (items (merge_no_id_row ts W1 r)) = Some x).
    { rewrite (merge_no_id_row_new ts W1 r Hnone). cbn [items].
      rewrite lookup_id_insert by apply new_rowid_fresh. cbn [it_id].
      fold n. now rewrite Z.eqb_refl. }
    assert (Hw2 : wf (merge_no_id_row ts W1 r)) by now apply merge_no_id_row_wf.
    exists n, x. split.
    + apply fold_no_id_keeps_sizeless; [exact Hs | exact Hw2 | exact Hx].
    + cbn. rewrite Hs. repeat split.
      destruct (lookup_id n (items db)) eqn:E; [|reflexivity].
      destruct Hk1 as [_ Hk1]. destruct (Hk1 n); [congruence|].
      apply new_rowid_fresh.
Qed.

(** C10.  Nothing checks that a size is there.  For a sheet that has the
    required headers and whose quantity cells are blank or convert to an
    integer, [read_excel_to_df] returns a frame with one row per row of the
    sheet, in order, whatever the size cells hold, and the import of the
    sheet succeeds: it is the merge of that frame.  A row whose size cell is
    blank is in the frame, without size, and the import of the sheet into a
    store with distinct ids leaves a record without size for it, with the
    company and series of the row: under the id of the row when it has one
    (unless a later row of the sheet has the same id and overwrites it),
    else a new record, under an id the store did not have, with the
    quantity of the row. *)
Theorem blank_size_reaches_the_store (py_int_of_str : string -> option Z)
    (py_str_of_num : Z -> string) (df : Table) :
  let cols_map := normalize_cols (columns df) in
  forallb (fun r => dict_has r cols_map) required = true ->
  Forall (fun row =>
            cell_notna (row_get (columns df) cols_map row "quantity") = true ->
            py_int py_int_of_str (row_get (columns df) cols_map row "quantity")
              <> None)
         (data df) ->
  exists frame : list CanonicalRow,
    read_excel_to_df py_int_of_str py_str_of_num df =
      Ok (match data df with [] => EmptyFrame | _ => Frame frame end) /\
    List.length frame = List.length (data df) /\
    (forall ts db,
       data df <> [] ->
       import_merge py_int_of_str py_str_of_num no_fault ts df db =
       (Ok tt, merged ts frame db)) /\
    forall k row,
      nth_error (data df) k = Some row ->
      row_get (columns df) cols_map row "tyre size" = NaN ->
      exists r,
        nth_error frame k = Some r /\
        r_tyre_size r = None /\
        forall ts db,
          wf db ->
          (forall k' r', (k < k')%nat -> nth_error frame k' = Some r' ->
             r_id r = None \/ r_id r' <> r_id r) ->
          exists i it,
            lookup_id i
              (items (snd (import_merge py_int_of_str py_str_of_num no_fault ts
                             df db))) = Some it /\
            it_tyre_size it = None /\
            it_company it = r_company r /\
            it_series it = r_series r /\
            it_last_updated it = ts /\
            match r_id r with
            | Some j => i = j
            | None => lookup_id i (items db) = None /\ it_qty it = r_qty r
            end.
Proof.
  intros cols_map Hreq Hqty.
  destruct (read_excel_frame py_int_of_str py_str_of_num df Hreq Hqty)
    as (frame & E & L & N).
  fold cols_map in N.
  assert (Himp : forall ts db, data df <> [] ->
            import_merge py_int_of_str py_str_of_num no_fault ts df db =
            (Ok tt, merged ts frame db)).
  { intros ts db Hne. unfold import_merge. rewrite E.
    destruct (data df); [now destruct Hne|]. apply upsert_no_fault. }
  exists frame. split; [exact E|]. split; [exact L|]. split; [exact Himp|].
  intros k row Hk Hblank. destruct (N k row Hk) as (r & i & Hc & _ & Hr).
  pose proof (canonical_row_blank_size _ _ _ _ _ _ Hblank Hc) as Hs.
  exists (with_id r i). split; [exact Hr|]. split; [exact Hs|].
  intros ts db Hw Hlater.
  rewrite Himp by (intros H0; rewrite H0 in Hk; destruct k; discriminate).
  cbn [snd].
  exact (sizeless_row_reaches_store ts db frame k (with_id r i) Hw Hr Hs Hlater).
Qed.

Lemma blank_size_reaches_the_store_witness :
  exists frame,
    read_excel_to_df (fun _ => None) (fun _ => "0")
      (mkTable ["ID"; "Tyre Size"; "Quantity"]
               [[Num 1; NaN; Num 4]; [NaN; NaN; NaN]]) = Ok (Frame frame) /\
    List.length frame = 2%nat /\
    import_merge (fun _ => None) (fun _ => "0") no_fault "t1"
      (mkTable ["ID"; "Tyre Size"; "Quantity"]
               [[Num 1; NaN; Num 4]; [NaN; NaN; NaN]]) sample_db =
    (Ok tt, merged "t1" frame sample_db) /\
    items (merged "t1" frame sample_db) =
    [mkItem 1 None None None 11 "t1";
     mkItem 2 (Some "155 70 R13") None None 3 "t0";
     mkItem 3 None None None 0 "t1"].
Proof.
  destruct (blank_size_reaches_the_store (fun _ => None) (fun _ => "0")
              (mkTable ["ID"; "Tyre Size"; "Quantity"]
                       [[Num 1; NaN; Num 4]; [NaN; NaN; NaN]]))
    as (frame & E & L & I & _).
  - reflexivity.
  - repeat constructor; cbn; discriminate.
  - exists frame. split; [exact E|]. split; [exact L|].
    split; [apply I; discriminate|].
    cbn in E. injection E as <-. reflexivity.
Defined.

(** X18.  Id cells never abort the parse.  In a sheet with the required
    headers whose quantity cells are blank or convert, a row whose id cell
    is blank or is text that [int] rejects is in the frame
    [read_excel_to_df] returns, at its place, without id.  The import of a
    sheet made of that row alone goes by the signature: it adds the
    quantity to the first record that has the size, company and series of
    the row, with reason "import_merge_signature", and when there is none
    it inserts a record under a new id, with reason "import_new". *)
Theorem unreadable_id_is_no_id (py_int_of_str : string -> option Z)
    (py_str_of_num : Z -> string) (df : Table) (k : nat) (row : list cell) :
  let cols_map := normalize_cols (columns df) in
  forallb (fun r => dict_has r cols_map) required = true ->
  Forall (fun row =>
            cell_notna (row_get (columns df) cols_map row "quantity") = true ->
            py_int py_int_of_str (row_get (columns df) cols_map row "quantity")
              <> None)
         (data df) ->
  nth_error (data df) k = Some row ->
  py_int py_int_of_str (row_get (columns df) cols_map row "id") = None ->
  exists frame r,
    read_excel_to_df py_int_of_str py_str_of_num df = Ok (Frame frame) /\
    nth_error frame k = Some r /\
    r_id r = None /\
    read_excel_to_df py_int_of_str py_str_of_num (mkTable (columns df) [row]) =
      Ok (Frame [r]) /\
    forall ts db,
      import_merge py_int_of_str py_str_of_num no_fault ts
        (mkTable (columns df) [row]) db =
      (Ok tt,
       match lookup_signature (r_tyre_size r) (r_company r) (r_series r)
               (items db) with
       | Some it =>
           mkDB (update_where_id (it_id it)
                   (fun x => mkItem (it_id x) (it_tyre_size x) (it_company x)
                                    (it_series x) (it_qty it + r_qty r) ts)
                   (items db))
                (transactions db ++
                 [mkTxn (it_id it) (r_tyre_size r) (r_company r) (r_series r)
                        (r_qty r) "import_merge_signature" ts
                        (Some "imported by signature")])
       | None =>
           mkDB (insert_by_id
                   (mkItem (new_rowid (items db)) (r_tyre_size r) (r_company r)
                           (r_series r) (r_qty r) ts)
                   (items db))
                (transactions db ++
                 [mkTxn (new_rowid (items db)) (r_tyre_size r) (r_company r)
                        (r_series r) (r_qty r) "import_new" ts
                        (Some "new row from excel")])
       end).
Proof.
  intros cols_map Hreq Hqty Hk Hid.
  destruct (read_excel_frame py_int_of_str py_str_of_num df Hreq Hqty)
    as (frame & E & _ & N).
  fold cols_map in N.
  destruct (N k row Hk) as (r & i & Hc & Hi & Hr).
  pose proof (canonical_row_id _ _ _ _ _ _ Hc) as Ei. rewrite Hid in Ei.
  assert (i = None) by now apply Hi. subst i.
  assert (Er : with_id r None = r) by (destruct r; cbn in *; now subst).
  rewrite Er in Hr.
  assert (E1 : read_excel_to_df py_int_of_str py_str_of_num
                 (mkTable (columns df) [row]) = Ok (Frame [r])).
  { unfold read_excel_to_df. cbn [columns data canonical_rows]. fold cols_map.
    rewrite Hreq, Hc. cbn [negb].
    unfold pd_DataFrame, id_column. cbn [map]. rewrite Ei. cbn -[with_id].
    now rewrite Er. }
  exists frame, r. split.
  { rewrite E. destruct (data df); [destruct k; discriminate | reflexivity]. }
  split; [exact Hr|]. split; [exact Ei|]. split; [exact E1|].
  intros ts db. unfold import_merge. rewrite E1.
  rewrite (import_one_no_id_row ts r db Ei).
  destruct (lookup_signature (r_tyre_size r) (r_company r) (r_series r) (items db))
    as [it|] eqn:Hl.
  - now rewrite (merge_no_id_row_found ts db r it Hl).
  - now rewrite (merge_no_id_row_new ts db r Hl).
Qed.

Lemma unreadable_id_is_no_id_witness :
  exists frame r,
    read_excel_to_df (fun _ => None) (fun _ => "0")
      (mkTable ["ID"; "Tyre Size"; "Quantity"]
               [[Num 7; Str "155 70 R13"; Num 1];
                [Str "A-12"; Str "185 65 R14"; Num 4]]) = Ok (Frame frame) /\
    nth_error frame 1 = Some r /\
    r_id r = None.
Proof.
  destruct (unreadable_id_is_no_id (fun _ => None) (fun _ => "0")
              (mkTable ["ID"; "Tyre Size"; "Quantity"]
                       [[Num 7; Str "155 70 R13"; Num 1];
                        [Str "A-12"; Str "185 65 R14"; Num 4]])
              1%nat [Str "A-12"; Str "185 65 R14"; Num 4])
    as (frame & r & E & N & I & _).
  - reflexivity.
  - repeat constructor; cbn; discriminate.
  - reflexivity.
  - reflexivity.
  - exists frame, r. split; [exact E|]. split; [exact N | exact I].
Defined.
